(** * sharp-to-ico: the ICO container encoder of [src/index.ts]

    A shallow embedding of the encoder (file header, directory entries,
    bitmap info headers, pixel payloads and the assembler) together with
    the properties of its byte layout.

    Numbers are JavaScript numbers that hold integers; they are modelled
    as [Z].  The 32-bit coercions of the bitwise operators are written out.
    A [Buffer] is a list of bytes, each kept as a [Z] in [0, 256).  The
    checked accessors of Node's [Buffer] throw a [RangeError]; a thrown
    value is the [Throw] branch of [result]. *)

From Stdlib Require Import ZArith Lia Bool String.
From stdpp Require Import base tactics list list_numbers.

Local Open Scope Z_scope.

(** ** Exceptions *)

Inductive Error : Type :=
  | ERR_OUT_OF_RANGE                (* RangeError of a checked Buffer access *)
  | JsError (message : string).     (* new Error(message) *)

Inductive result (A : Type) : Type :=
  | Ok (a : A)
  | Throw (e : Error).
Arguments Ok {A} a.
Arguments Throw {A} e.

Global Instance result_ret : MRet result := fun A a => Ok a.

Global Instance result_bind : MBind result := fun A B f m =>
  match m with
  | Ok a => f a
  | Throw e => Throw e
  end.

(** ** 32-bit integer operators of JavaScript *)

Module Js.

Definition ToUint32 (z : Z) : Z := z mod 2 ^ 32.

Definition ToInt32 (z : Z) : Z :=
  let u := z mod 2 ^ 32 in
  if u <? 2 ^ 31 then u else u - 2 ^ 32.

(** [x | y] *)
Definition or (x y : Z) : Z := ToInt32 (Z.lor (ToUint32 x) (ToUint32 y)).

(** [x & y] *)
Definition and (x y : Z) : Z := ToInt32 (Z.land (ToUint32 x) (ToUint32 y)).

(** [x << n] *)
Definition shl (x n : Z) : Z :=
  ToInt32 (Z.shiftl (ToInt32 x) (ToUint32 n mod 32)).

(** [x >>> n] *)
Definition ushr (x n : Z) : Z :=
  Z.shiftr (ToUint32 x) (ToUint32 n mod 32).

(** A value read by index from a typed array: a byte, or [undefined]
    when the index is outside the array. *)
Definition ToNumeric32 (v : option Z) : Z := default 0 v.

(** [v > 0] for a possibly [undefined] value: [undefined] converts to
    NaN, and every comparison with NaN is false. *)
Definition gt0 (v : option Z) : bool :=
  match v with
  | Some z => 0 <? z
  | None => false
  end.

(** [for (let i = 0; i < bound; i++) body], the state threaded through
    the body; a throwing body ends the loop. *)
Fixpoint for_from {S : Type} (fuel : nat) (i : Z)
    (body : Z -> S -> result S) (s : S) : result S :=
  match fuel with
  | O => Ok s
  | Datatypes.S fuel' => s' ← body i s; for_from fuel' (i + 1) body s'
  end.

Definition for_lt {S : Type} (bound : Z)
    (body : Z -> S -> result S) (s : S) : result S :=
  for_from (Z.to_nat bound) 0 body s.

End Js.

(** ** Node's Buffer *)

Abbreviation Buffer := (list Z).

Module Buf.

Definition is_byte (b : Z) : Prop := 0 <= b < 256.

Definition wf (buf : Buffer) : Prop := Forall is_byte buf.

Definition length (buf : Buffer) : Z := Z.of_nat (List.length buf).

(** [buf[i]]: [undefined] outside the buffer. *)
Definition get (buf : Buffer) (i : Z) : option Z :=
  if i <? 0 then None else buf !! Z.to_nat i.

(** [buf[i] = v] on an index inside the buffer: the value is stored
    modulo 256. *)
Definition set (buf : Buffer) (i v : Z) : Buffer :=
  <[Z.to_nat i := v mod 256]> buf.

(** [Buffer.alloc(size)]: zero-filled.  Node also refuses a size above
    [buffer.constants.MAX_LENGTH], a limit that depends on the platform and
    the release (2^30 - 1 at the least); that limit is not modelled, so a
    result of [alloc] stands for the program's only for sizes the platform
    can allocate. *)
Definition alloc (size : Z) : result Buffer :=
  if size <? 0 then Throw ERR_OUT_OF_RANGE
  else Ok (replicate (Z.to_nat size) 0).

Definition checkBounds (buf : Buffer) (offset byteLength : Z) : result unit :=
  match get buf offset, get buf (offset + byteLength) with
  | Some _, Some _ => Ok tt
  | _, _ => Throw ERR_OUT_OF_RANGE
  end.

Definition checkInt (value min max : Z) (buf : Buffer)
    (offset byteLength : Z) : result unit :=
  if (max <? value) || (value <? min) then Throw ERR_OUT_OF_RANGE
  else checkBounds buf offset byteLength.

Definition writeU_Int8 (buf : Buffer) (value offset min max : Z)
    : result Buffer :=
  checkInt value min max buf offset 0 ;;
  Ok (set buf offset value).

Definition writeU_Int16LE (buf : Buffer) (value offset min max : Z)
    : result Buffer :=
  checkInt value min max buf offset 1 ;;
  let buf := set buf offset value in
  let buf := set buf (offset + 1) (Js.ushr value 8) in
  Ok buf.

Definition writeU_Int32LE (buf : Buffer) (value offset min max : Z)
    : result Buffer :=
  checkInt value min max buf offset 3 ;;
  let buf := set buf offset value in
  let value := Js.ushr value 8 in
  let buf := set buf (offset + 1) value in
  let value := Js.ushr value 8 in
  let buf := set buf (offset + 2) value in
  let value := Js.ushr value 8 in
  let buf := set buf (offset + 3) value in
  Ok buf.

Definition writeUInt8 (buf : Buffer) (value offset : Z) : result Buffer :=
  writeU_Int8 buf value offset 0 255.

Definition writeUInt16LE (buf : Buffer) (value offset : Z) : result Buffer :=
  writeU_Int16LE buf value offset 0 65535.

Definition writeUInt32LE (buf : Buffer) (value offset : Z) : result Buffer :=
  writeU_Int32LE buf value offset 0 4294967295.

Definition writeInt32LE (buf : Buffer) (value offset : Z) : result Buffer :=
  writeU_Int32LE buf value offset (-2147483648) 2147483647.

Definition readUInt8 (buf : Buffer) (offset : Z) : result Z :=
  match get buf offset with
  | Some v => Ok v
  | None => Throw ERR_OUT_OF_RANGE
  end.

(** [Buffer.concat(list, totalLength)]: the buffers in order, cut or
    zero-filled to [totalLength] bytes. *)
Definition concat (list : list Buffer) (totalLength : Z) : Buffer :=
  let n := Z.to_nat totalLength in
  let all := mjoin list in
  take n all ++ replicate (n - List.length all) 0.

End Buf.

(** ** The image description returned with every extracted buffer *)

Record OutputInfo : Type := mkOutputInfo {
  format : string;
  size : Z;
  width : Z;
  height : Z
}.

(** ** The pixel encoder *)

Definition getRowStride (width : Z) : Z :=
  if Z.rem width 32 =? 0 then width / 8
  else 4 * (width / 32 + 1).

Record Pixel : Type := mkPixel {
  r : option Z;
  g : option Z;
  b : option Z;
  a : option Z
}.

Definition getColorPixel (buffer : Buffer) (x y width : Z) : Pixel :=
  let pxPos := (y * width + x) * 4 in
  {| r := Buf.get buffer (pxPos + 0);
     g := Buf.get buffer (pxPos + 1);
     b := Buf.get buffer (pxPos + 2);
     a := Buf.get buffer (pxPos + 3) |}.

(** The body of the colour-map loop at pixel [(x, y)]. *)
Definition xorStep (data : Buffer) (width height : Z) (x y : Z)
    (buf : Buffer) : result Buffer :=
  let px := getColorPixel data x y width in
  let newColor :=
    Js.or (Js.or (Js.or (Js.ToNumeric32 (b px))
                        (Js.shl (Js.ToNumeric32 (g px)) 8))
                 (Js.shl (Js.ToNumeric32 (r px)) 16))
          (Js.shl (Js.ToNumeric32 (a px)) 24) in
  let pos := ((height - y - 1) * width + x) * 4 in
  Buf.writeInt32LE buf newColor pos.

(** The body of the mask loop at pixel [(x, y)]; [size] is the length of
    the colour map. *)
Definition andStep (data : Buffer) (size width height : Z) (x y : Z)
    (buf : Buffer) : result Buffer :=
  let px := getColorPixel data x y width in
  let alpha := if Js.gt0 (a px) then 0 else 1 in
  let bitNum := (height - y - 1) * width + x in
  let width32 :=
    if Z.rem width 32 =? 0 then width / 32 else width / 32 + 1 in
  let line := bitNum / width in
  let offset := Z.rem bitNum width in
  let bitVal := Js.and alpha 1 in
  let pos := size + line * width32 * 4 + offset / 8 in
  old ← Buf.readUInt8 buf pos;
  let newVal := Js.or old (Js.shl bitVal (7 - Z.rem offset 8)) in
  Buf.writeUInt8 buf newVal pos.

Definition getDib (data : Buffer) (info : OutputInfo) : result Buffer :=
  let size := size info in
  let width := width info in
  let height := width in
  let andMapRow := getRowStride width in
  let andMapSize := andMapRow * height in
  buf ← Buf.alloc (size + andMapSize);
  buf ← Js.for_lt height (fun y =>
          Js.for_lt width (fun x => xorStep data width height x y)) buf;
  buf ← Js.for_lt height (fun y =>
          Js.for_lt width (fun x => andStep data size width height x y)) buf;
  Ok buf.

(** ** Header, directory entry and bitmap info header *)

Definition getHeader (numOfImages : Z) : result Buffer :=
  buf ← Buf.alloc 6;
  buf ← Buf.writeUInt16LE buf 0 0;
  buf ← Buf.writeUInt16LE buf 1 2;
  buf ← Buf.writeUInt16LE buf numOfImages 4;
  Ok buf.

Definition getDir (info : OutputInfo) (offset : Z) : result Buffer :=
  buf ← Buf.alloc 16;
  let size := size info + 40 in
  let width := if 256 <=? width info then 0 else width info in
  let height := width in
  let bpp := 32 in
  buf ← Buf.writeUInt8 buf width 0;
  buf ← Buf.writeUInt8 buf height 1;
  buf ← Buf.writeUInt8 buf 0 2;
  buf ← Buf.writeUInt8 buf 0 3;
  buf ← Buf.writeUInt16LE buf 1 4;
  buf ← Buf.writeUInt16LE buf bpp 6;
  buf ← Buf.writeUInt32LE buf size 8;
  buf ← Buf.writeUInt32LE buf offset 12;
  Ok buf.

Definition getBmpInfoHeader (info : OutputInfo) : result Buffer :=
  buf ← Buf.alloc 40;
  let width := width info in
  let height := width * 2 in
  let bpp := 32 in
  buf ← Buf.writeUInt32LE buf 40 0;
  buf ← Buf.writeInt32LE buf width 4;
  buf ← Buf.writeInt32LE buf height 8;
  buf ← Buf.writeUInt16LE buf 1 12;
  buf ← Buf.writeUInt16LE buf bpp 14;
  buf ← Buf.writeUInt32LE buf 0 16;
  buf ← Buf.writeUInt32LE buf 0 20;
  buf ← Buf.writeInt32LE buf 0 24;
  buf ← Buf.writeInt32LE buf 0 28;
  buf ← Buf.writeUInt32LE buf 0 32;
  buf ← Buf.writeUInt32LE buf 0 36;
  Ok buf.

(** ** The image pipeline of the external library

    A [Sharp] value is a pipeline description: a source and the operations
    queued on it.  Nothing is decoded or resampled until [toBuffer] is
    awaited; that step belongs to the library and is a parameter of the
    assembler below. *)

Inductive Kernel : Type := nearest | cubic | mitchell | lanczos2 | lanczos3.

Inductive Sharp : Type :=
  | sharp (input : string)
  | resize (image : Sharp) (w h : Z) (kernel : Kernel)
  | clone (image : Sharp)
  | raw (image : Sharp).

(** An awaited computation: the pipelines handed to the library so far, in
    order, and the value or the rejection. *)
Definition Async (A : Type) : Type := (list Sharp * result A)%type.

Global Instance Async_ret : MRet Async := fun A a => ([], Ok a).

Global Instance Async_bind : MBind Async := fun A B f m =>
  match m with
  | (calls, Ok a) => let '(calls', rb) := f a in (calls ++ calls', rb)
  | (calls, Throw e) => (calls, Throw e)
  end.

Definition throw {A} (e : Error) : Async A := ([], Throw e).

(** A synchronous step inside an async function. *)
Definition sync {A} (m : result A) : Async A := ([], m).

Definition sizeList : list Z := [48; 32; 16].

Definition err : Error := JsError "Please give me a square PNG image.".

Record Assembly : Type := mkAssembly {
  headerAndIconDir : list Buffer;
  imageDataArr : list Buffer;
  len : Z;
  offset : Z
}.

Section Assembler.

(** [await image.toBuffer({ resolveWithObject: true })] *)
Variable toBuffer : Sharp -> result (Buffer * OutputInfo).

Definition await_toBuffer (image : Sharp) : Async (Buffer * OutputInfo) :=
  ([image], toBuffer image).

(** The body of the [for (const img of images)] loop. *)
Definition imagesToIco_body (st : Assembly) (img : Sharp) : Async Assembly :=
  '(data, info) ← await_toBuffer (raw img);
  dir ← sync (getDir info (offset st));
  bmpInfoHeader ← sync (getBmpInfoHeader info);
  dib ← sync (getDib data info);
  mret {| headerAndIconDir := headerAndIconDir st ++ [dir];
          imageDataArr := imageDataArr st ++ [bmpInfoHeader; dib];
          len := len st + Buf.length dir + Buf.length bmpInfoHeader
                 + Buf.length dib;
          offset := offset st + Buf.length bmpInfoHeader + Buf.length dib |}.

Fixpoint for_of (images : list Sharp) (st : Assembly) : Async Assembly :=
  match images with
  | [] => mret st
  | img :: images' => st' ← imagesToIco_body st img; for_of images' st'
  end.

Definition imagesToIco (images : list Sharp) : Async Buffer :=
  header ← sync (getHeader (Z.of_nat (List.length images)));
  st ← for_of images
         {| headerAndIconDir := [header];
            imageDataArr := [];
            len := Buf.length header;
            offset := Buf.length header + 16 * Z.of_nat (List.length images) |};
  mret (Buf.concat (headerAndIconDir st ++ imageDataArr st) (len st)).

Definition toIco (image : Sharp) : Async Buffer :=
  '(_, info) ← await_toBuffer image;
  let size := width info in
  if negb (String.eqb (format info) "png") || negb (size =? height info)
  then throw err
  else
    let image :=
      if negb (size =? 256) then resize image 256 256 cubic else image in
    let resizedImages :=
      (fun targetSize => resize (clone image) targetSize targetSize cubic)
        <$> sizeList in
    imagesToIco (resizedImages ++ [image]).

End Assembler.

(** A stand-in for the library that renders every pipeline as an opaque
    white square: the source is [n] pixels wide, a resize yields the
    requested width. *)
Fixpoint solidWidth (n : Z) (image : Sharp) : Z :=
  match image with
  | sharp _ => n
  | resize _ w _ _ => w
  | clone image | raw image => solidWidth n image
  end.

Definition solid (n : Z) (image : Sharp) : result (Buffer * OutputInfo) :=
  let w := solidWidth n image in
  Ok (replicate (Z.to_nat (w * w * 4)) 255,
      {| format := match image with raw _ => "raw" | _ => "png" end;
         size := w * w * 4; width := w; height := w |}).

(** What [solid] hands back for a raw extraction of width [w]. *)
Definition solidImage (w : Z) : list Z * OutputInfo :=
  (replicate (Z.to_nat (w * w * 4)) 255,
   {| format := "raw"; size := w * w * 4; width := w; height := w |}).

(** A stand-in that renders every pipeline as one opaque white pixel. *)
Definition dot (image : Sharp) : result (list Z * OutputInfo) :=
  Ok ([255; 255; 255; 255],
      {| format := match image with raw _ => "raw" | _ => "png" end;
         size := 4; width := 1; height := 1 |}).

(** A stand-in whose source is 10 pixels wide and 20 pixels high. *)
Definition tall (image : Sharp) : result (list Z * OutputInfo) :=
  Ok (replicate 800 255,
      {| format := "png"; size := 800; width := 10; height := 20 |}).

(** As [dot], but the 32x32 resample fails. *)
Definition failing32 (image : Sharp) : result (list Z * OutputInfo) :=
  match image with
  | raw (resize _ 32 _ _) => Throw (JsError "resize failed")
  | _ => dot image
  end.

(** A 2x2 raster whose only transparent pixel is the one in column 1 of
    row 0; the pixel in column 0 of row 1 is opaque. *)
Definition corner2x2 : list Z :=
  [1; 2; 3; 255;  5; 6; 7; 0;  9; 10; 11; 255;  13; 14; 15; 255].

(** A 2x2 raster used in examples: the top-left and the bottom-right pixel
    are fully transparent. *)
Definition demo2x2 : list Z :=
  [1; 2; 3; 0;  5; 6; 7; 128;  9; 10; 11; 12;  13; 14; 15; 0].

Definition demo2x2_info : OutputInfo := mkOutputInfo "raw" 16 2 2.

(** * Vocabulary of the properties *)

(** The packed colour word of [getDib], as an unsigned 32-bit pattern. *)
Definition packed (r g b a : Z) : Z :=
  b + g * 2 ^ 8 + r * 2 ^ 16 + a * 2 ^ 24.

(** Byte offset of pixel [(x, y)] in the colour map. *)
Definition xorPos (W x y : Z) : Z := ((W - 1 - y) * W + x) * 4.

(** Byte offset of the mask byte that holds the bit of pixel [(x, y)]. *)
Definition andPos (W x y : Z) : Z :=
  W * W * 4 + (W - 1 - y) * getRowStride W + x / 8.

(** Pixel [(x', y')] is visited before [(x, y)] by the row-major loops. *)
Definition before (x' y' x y : Z) : Prop := y' < y \/ (y' = y /\ x' < x).

Definition beforeb (x' y' x y : Z) : bool :=
  (y' <? y) || ((y' =? y) && (x' <? x)).

(** The bytes of pixel [(x, y)] are in place in the colour map. *)
Definition xorDone (data : list Z) (W : Z) (buf : list Z) (x y : Z) : Prop :=
  forall r g b a,
    getColorPixel data x y W = mkPixel (Some r) (Some g) (Some b) (Some a) ->
    Buf.get buf (xorPos W x y) = Some b
    /\ Buf.get buf (xorPos W x y + 1) = Some g
    /\ Buf.get buf (xorPos W x y + 2) = Some r
    /\ Buf.get buf (xorPos W x y + 3) = Some a.

(** Invariant of the colour-map loops on entering pixel [(x, y)]. *)
Definition XInv (data : list Z) (W : Z) (y x : Z) (buf : list Z) : Prop :=
  Buf.length buf = W * W * 4 + getRowStride W * W
  /\ Buf.wf buf
  /\ (forall x' y', 0 <= x' < W -> 0 <= y' < W -> before x' y' x y ->
                    xorDone data W buf x' y')
  /\ (forall i, W * W * 4 <= i < W * W * 4 + getRowStride W * W ->
                Buf.get buf i = Some 0).

(** The mask bit of pixel [(x, y)]: set exactly for [alpha = 0]. *)
Definition alphaBit (data : list Z) (W x y : Z) : Z :=
  if Js.gt0 (a (getColorPixel data x y W)) then 0 else 1.

(** The expected value of bit [n] of byte [c] in mask row [l]: the pixel in
    column [8 * c + 7 - n] of image row [W - 1 - l], when there is one. *)
Definition maskBit (data : list Z) (W l c n : Z) : bool :=
  (8 * c + 7 - n <? W) && (alphaBit data W (8 * c + 7 - n) (W - 1 - l) =? 1).

(** Invariant of the mask loops on entering pixel [(x, y)]; [cbuf] is the
    buffer the colour-map loops left. *)
Definition AInv (data : list Z) (W : Z) (cbuf : list Z) (y x : Z)
    (buf : list Z) : Prop :=
  Buf.length buf = W * W * 4 + getRowStride W * W
  /\ Buf.wf buf
  /\ (forall i, 0 <= i < W * W * 4 -> Buf.get buf i = Buf.get cbuf i)
  /\ (forall l c n, 0 <= l < W -> 0 <= c < getRowStride W -> 0 <= n < 8 ->
        exists v,
          Buf.get buf (W * W * 4 + l * getRowStride W + c) = Some v
          /\ Z.testbit v n
             = maskBit data W l c n && beforeb (8 * c + 7 - n) (W - 1 - l) x y).

(** A square RGBA8 raster of width [W]: four bytes per pixel, rows top-down. *)
Definition square_rgba8 (data : list Z) (info : OutputInfo) (W : Z) : Prop :=
  width info = W /\ height info = W /\ size info = W * W * 4
  /\ Buf.length data = W * W * 4 /\ Buf.wf data /\ 0 <= W.

(** Little-endian encodings of the 16-bit and 32-bit fields. *)
Definition le16 (v : Z) : list Z := Z_to_little_endian 2 8 v.

Definition le32 (v : Z) : list Z := Z_to_little_endian 4 8 v.

(** Length of the payload of an image: colour map and mask. *)
Definition payloadLen (info : OutputInfo) : Z :=
  size info + getRowStride (width info) * width info.

(** The 16 bytes of a directory entry. *)
Definition dirBytes (info : OutputInfo) (off : Z) : list Z :=
  [if width info <? 256 then width info else 0;
   if width info <? 256 then width info else 0; 0; 0]
  ++ le16 1 ++ le16 32 ++ le32 (size info + 40) ++ le32 off.

(** The 40 bytes of a bitmap info header. *)
Definition hdrBytes (info : OutputInfo) : list Z :=
  le32 40 ++ le32 (width info) ++ le32 (width info * 2) ++ le16 1 ++ le16 32
  ++ le32 0 ++ le32 0 ++ le32 0 ++ le32 0 ++ le32 0 ++ le32 0.

(** The payload [getDib] returns, empty when it throws. *)
Definition dibOf (di : list Z * OutputInfo) : list Z :=
  match getDib di.1 di.2 with
  | Ok dib => dib
  | Throw _ => []
  end.

(** The file offsets of the images when the first one starts at [off]: each
    image occupies its 40-byte header and its payload. *)
Fixpoint offsetsFrom (off : Z) (infos : list OutputInfo) : list Z :=
  match infos with
  | [] => []
  | info :: infos' => off :: offsetsFrom (off + 40 + payloadLen info) infos'
  end.

(** Sum of [40 + payloadLen] over the images. *)
Fixpoint bodiesLen (infos : list OutputInfo) : Z :=
  match infos with
  | [] => 0
  | info :: infos' => 40 + payloadLen info + bodiesLen infos'
  end.

(** [buf.subarray(start, start + n)] *)
Definition slice (buf : list Z) (start n : Z) : list Z :=
  take (Z.to_nat n) (drop (Z.to_nat start) buf).

(** An extracted image the encoder accepts: a square RGBA8 raster. *)
Definition rendered_ok (di : list Z * OutputInfo) : Prop :=
  square_rgba8 di.1 di.2 (width di.2).

(** The 256x256 image of a conversion: the source itself when it is 256
    wide, a cubic resample of it otherwise. *)
Definition canonical (info : OutputInfo) (image : Sharp) : Sharp :=
  if width info =? 256 then image else resize image 256 256 cubic.

(** The images of a conversion, in the order they are encoded. *)
Definition imageList (info : OutputInfo) (image : Sharp) : list Sharp :=
  [resize (clone (canonical info image)) 48 48 cubic;
   resize (clone (canonical info image)) 32 32 cubic;
   resize (clone (canonical info image)) 16 16 cubic;
   canonical info image].

(** The bytes of pixel [(x, y)] are in place in the colour map, a channel
    the raster does not hold counting as 0. *)
Definition xorDoneAny (data : list Z) (W : Z) (buf : list Z) (x y : Z)
    : Prop :=
  let px := getColorPixel data x y W in
  Buf.get buf (xorPos W x y) = Some (Js.ToNumeric32 (b px))
  /\ Buf.get buf (xorPos W x y + 1) = Some (Js.ToNumeric32 (g px))
  /\ Buf.get buf (xorPos W x y + 2) = Some (Js.ToNumeric32 (r px))
  /\ Buf.get buf (xorPos W x y + 3) = Some (Js.ToNumeric32 (a px)).

(** Invariant of the colour-map loops for a raster of any length. *)
Definition XInvAny (data : list Z) (W : Z) (y x : Z) (buf : list Z) : Prop :=
  Buf.length buf = W * W * 4 + getRowStride W * W
  /\ Buf.wf buf
  /\ (forall x' y', 0 <= x' < W -> 0 <= y' < W -> before x' y' x y ->
                    xorDoneAny data W buf x' y')
  /\ (forall i, W * W * 4 <= i < W * W * 4 + getRowStride W * W ->
                Buf.get buf i = Some 0).

(** * Properties *)

(** Two runs of the pixel encoder. *)
Example getDib_1x1 :
  getDib [10; 20; 30; 255] (mkOutputInfo "raw" 4 1 1)
  = Ok [30; 20; 10; 255; 0; 0; 0; 0].
Proof. reflexivity. Qed.

Example getDib_2x2 :
  getDib [1; 2; 3; 0;  5; 6; 7; 128;  9; 10; 11; 12;  13; 14; 15; 0]
         (mkOutputInfo "raw" 16 2 2)
  = Ok [11; 10; 9; 12;  15; 14; 13; 0;  3; 2; 1; 0;  7; 6; 5; 128;
        64; 0; 0; 0;  128; 0; 0; 0].
Proof. vm_compute. reflexivity. Qed.

(** ** The 32-bit operators on small values *)

Module JsFacts.

Lemma ToUint32_small z : 0 <= z < 2 ^ 32 -> Js.ToUint32 z = z.
Proof. intros H. unfold Js.ToUint32. apply Z.mod_small, H. Qed.

Lemma ToInt32_small z : 0 <= z < 2 ^ 31 -> Js.ToInt32 z = z.
Proof.
  intros H. unfold Js.ToInt32.
  rewrite Z.mod_small by lia.
  destruct (Z.ltb_spec z (2 ^ 31)); lia.
Qed.

Lemma ToInt32_range z : - 2 ^ 31 <= Js.ToInt32 z < 2 ^ 31.
Proof.
  unfold Js.ToInt32.
  pose proof (Z.mod_pos_bound z (2 ^ 32) ltac:(lia)).
  destruct (Z.ltb_spec (z mod 2 ^ 32) (2 ^ 31)); lia.
Qed.

Lemma ToUint32_ToInt32 z : Js.ToUint32 (Js.ToInt32 z) = z mod 2 ^ 32.
Proof.
  unfold Js.ToUint32, Js.ToInt32.
  pose proof (Z.mod_pos_bound z (2 ^ 32) ltac:(lia)).
  destruct (Z.ltb_spec (z mod 2 ^ 32) (2 ^ 31)).
  - apply Z.mod_small; lia.
  - replace (z mod 2 ^ 32 - 2 ^ 32) with (z mod 2 ^ 32 + (-1) * 2 ^ 32) by lia.
    rewrite Z.mod_add by lia. apply Z.mod_small; lia.
Qed.

Lemma or_range x y : -2147483648 <= Js.or x y <= 2147483647.
Proof.
  unfold Js.or.
  pose proof (ToInt32_range (Z.lor (Js.ToUint32 x) (Js.ToUint32 y))) as H.
  change (2 ^ 31) with 2147483648 in H. lia.
Qed.

(** OR of a value below [2^k] with a multiple of [2^k] is their sum. *)
Lemma lor_disjoint lo hi k :
  0 <= k -> 0 <= lo < 2 ^ k -> Z.lor lo (hi * 2 ^ k) = lo + hi * 2 ^ k.
Proof.
  intros Hk Hlo.
  assert (Hland : Z.land lo (hi * 2 ^ k) = 0).
  { apply Z.bits_inj'. intros n Hn.
    rewrite Z.land_spec, Z.bits_0.
    destruct (Z.lt_ge_cases n k).
    - rewrite Z.mul_pow2_bits_low by lia. apply andb_false_r.
    - rewrite <- (Z.mod_small lo (2 ^ k)) by lia.
      rewrite Z.mod_pow2_bits_high by lia. reflexivity. }
  rewrite <- Z.lxor_lor by exact Hland.
  symmetry. apply Z.add_nocarry_lxor, Hland.
Qed.

Lemma shl_byte v k :
  0 <= v < 256 -> 0 <= k <= 24 ->
  Js.ToUint32 (Js.shl v k) = v * 2 ^ k.
Proof.
  intros Hv Hk. unfold Js.shl.
  rewrite ToUint32_ToInt32, (ToInt32_small v) by lia.
  rewrite (ToUint32_small k) by lia.
  rewrite (Z.mod_small k 32) by lia.
  rewrite Z.shiftl_mul_pow2 by lia.
  apply Z.mod_small.
  assert (2 ^ k <= 2 ^ 24) by (apply Z.pow_le_mono_r; lia).
  assert (0 < 2 ^ k) by (apply Z.pow_pos_nonneg; lia).
  change (2 ^ 32) with (256 * 2 ^ 24). nia.
Qed.

Lemma newColor_bits r g b a :
  0 <= r < 256 -> 0 <= g < 256 -> 0 <= b < 256 -> 0 <= a < 256 ->
  Js.ToUint32
    (Js.or (Js.or (Js.or b (Js.shl g 8)) (Js.shl r 16)) (Js.shl a 24))
  = packed r g b a.
Proof.
  intros Hr Hg Hb Ha. unfold Js.or, packed.
  rewrite !ToUint32_ToInt32.
  rewrite !shl_byte by lia.
  rewrite (ToUint32_small b) by lia.
  rewrite (lor_disjoint b g 8) by lia.
  rewrite (Z.mod_small (b + g * 2 ^ 8)) by lia.
  rewrite (lor_disjoint _ r 16) by lia.
  rewrite (Z.mod_small (b + g * 2 ^ 8 + r * 2 ^ 16)) by lia.
  rewrite (lor_disjoint _ a 24) by lia.
  apply Z.mod_small. lia.
Qed.

Lemma packed_bytes r g b a :
  0 <= r < 256 -> 0 <= g < 256 -> 0 <= b < 256 -> 0 <= a < 256 ->
  packed r g b a mod 256 = b
  /\ (packed r g b a / 2 ^ 8) mod 256 = g
  /\ (packed r g b a / 2 ^ 16) mod 256 = r
  /\ (packed r g b a / 2 ^ 24) mod 256 = a.
Proof.
  intros Hr Hg Hb Ha. unfold packed.
  change (2 ^ 8) with 256. change (2 ^ 16) with 65536.
  change (2 ^ 24) with 16777216.
  repeat split; Z.div_mod_to_equations; lia.
Qed.

Lemma lor_byte_range old bit k :
  0 <= old < 256 -> 0 <= bit <= 1 -> 0 <= k <= 7 ->
  0 <= Z.lor old (bit * 2 ^ k) < 256.
Proof.
  intros Hold Hbit Hk.
  assert (2 ^ k <= 2 ^ 7) by (apply Z.pow_le_mono_r; lia).
  assert (0 < 2 ^ k) by (apply Z.pow_pos_nonneg; lia).
  change (2 ^ 7) with 128 in *.
  assert (Hnn : 0 <= Z.lor old (bit * 2 ^ k)) by (apply Z.lor_nonneg; nia).
  split; [exact Hnn|].
  destruct (Z.eq_dec (Z.lor old (bit * 2 ^ k)) 0) as [->|Hne]; [lia|].
  change 256 with (2 ^ 8).
  apply Z.log2_lt_pow2; [lia|].
  rewrite Z.log2_lor by nia.
  apply Z.max_lub_lt.
  - destruct (Z.eq_dec old 0) as [->|]; [reflexivity|].
    apply Z.log2_lt_pow2; [lia|]. change (2 ^ 8) with 256. lia.
  - destruct (Z.eq_dec (bit * 2 ^ k) 0) as [->|]; [reflexivity|].
    apply Z.log2_lt_pow2; [nia|]. change (2 ^ 8) with 256. nia.
Qed.

Lemma bit_testbit bit k n :
  0 <= bit <= 1 -> 0 <= k -> 0 <= n ->
  Z.testbit (bit * 2 ^ k) n = (bit =? 1) && (n =? k).
Proof.
  intros Hbit Hk Hn.
  assert (bit = 0 \/ bit = 1) as [-> | ->] by lia.
  - rewrite Z.mul_0_l, Z.bits_0. reflexivity.
  - rewrite Z.mul_1_l, Z.pow2_bits_eqb by lia.
    simpl. apply Z.eqb_sym.
Qed.

(** The mask bit of [getDib]: [old | (bitVal << k)] for a byte [old]. *)
Lemma or_bit old bit k :
  0 <= old < 256 -> 0 <= bit <= 1 -> 0 <= k <= 7 ->
  Js.or old (Js.shl (Js.and bit 1) k) = Z.lor old (bit * 2 ^ k).
Proof.
  intros Hold Hbit Hk.
  assert (Hand : Js.and bit 1 = bit).
  { assert (bit = 0 \/ bit = 1) as [-> | ->] by lia; reflexivity. }
  rewrite Hand. unfold Js.or.
  assert (2 ^ k <= 2 ^ 7) by (apply Z.pow_le_mono_r; lia).
  assert (0 < 2 ^ k) by (apply Z.pow_pos_nonneg; lia).
  assert (Hs : Js.ToUint32 (Js.shl bit k) = bit * 2 ^ k).
  { unfold Js.shl. rewrite ToUint32_ToInt32, (ToInt32_small bit) by lia.
    rewrite (ToUint32_small k), (Z.mod_small k 32) by lia.
    rewrite Z.shiftl_mul_pow2 by lia.
    apply Z.mod_small. change (2 ^ 7) with 128 in *. nia. }
  rewrite Hs, (ToUint32_small old) by lia.
  apply ToInt32_small.
  pose proof (lor_byte_range old bit k Hold Hbit Hk). lia.
Qed.

End JsFacts.

(** ** Buffer accessors *)

Module BufFacts.

Lemma get_is_Some buf i : is_Some (Buf.get buf i) <-> 0 <= i < Buf.length buf.
Proof.
  unfold Buf.get, Buf.length.
  destruct (Z.ltb_spec i 0).
  - split; [intros [? ?]; discriminate | lia].
  - rewrite lookup_lt_is_Some. lia.
Qed.

Lemma get_Some_lt buf i v : Buf.get buf i = Some v -> 0 <= i < Buf.length buf.
Proof. intros H. apply get_is_Some. eauto. Qed.

Lemma get_None_ge buf i : Buf.length buf <= i -> Buf.get buf i = None.
Proof.
  intros H. destruct (Buf.get buf i) eqn:E; [|reflexivity].
  apply get_Some_lt in E. lia.
Qed.

Lemma get_wf buf i v : Buf.wf buf -> Buf.get buf i = Some v -> 0 <= v < 256.
Proof.
  unfold Buf.wf, Buf.get. intros Hwf H.
  destruct (i <? 0); [discriminate|].
  exact (Forall_lookup_1 _ _ _ _ Hwf H).
Qed.

Lemma get_replicate n i :
  0 <= i < Z.of_nat n -> Buf.get (replicate n 0) i = Some 0.
Proof.
  intros H. unfold Buf.get.
  destruct (Z.ltb_spec i 0); [lia|].
  apply lookup_replicate_2. lia.
Qed.

Lemma length_set buf i v : Buf.length (Buf.set buf i v) = Buf.length buf.
Proof. unfold Buf.length, Buf.set. now rewrite length_insert. Qed.

Lemma get_set_eq buf i v :
  0 <= i < Buf.length buf -> Buf.get (Buf.set buf i v) i = Some (v mod 256).
Proof.
  unfold Buf.get, Buf.set, Buf.length. intros H.
  destruct (Z.ltb_spec i 0); [lia|].
  apply list_lookup_insert_eq. lia.
Qed.

Lemma get_set_ne buf i j v :
  0 <= i -> i <> j -> Buf.get (Buf.set buf i v) j = Buf.get buf j.
Proof.
  unfold Buf.get, Buf.set. intros Hi Hne.
  destruct (Z.ltb_spec j 0); [reflexivity|].
  apply list_lookup_insert_ne. lia.
Qed.

Lemma wf_set buf i v : Buf.wf buf -> Buf.wf (Buf.set buf i v).
Proof.
  unfold Buf.wf, Buf.set. intros H.
  destruct (decide (Z.to_nat i < List.length buf)%nat) as [Hlt|Hge].
  - apply Forall_insert; [exact H|].
    unfold Buf.is_byte. apply Z.mod_pos_bound. lia.
  - rewrite list_insert_ge by lia. exact H.
Qed.

Lemma wf_replicate n : Buf.wf (replicate n 0).
Proof. apply Forall_replicate. unfold Buf.is_byte. lia. Qed.

Lemma checkInt_ok value min max buf offset k :
  min <= value <= max -> 0 <= offset -> 0 <= k ->
  offset + k < Buf.length buf ->
  Buf.checkInt value min max buf offset k = Ok tt.
Proof.
  intros Hv Ho Hk Hlen. unfold Buf.checkInt, Buf.checkBounds.
  destruct (Z.ltb_spec max value); [lia|].
  destruct (Z.ltb_spec value min); [lia|]. simpl.
  destruct (proj2 (get_is_Some buf offset) ltac:(lia)) as [? ->].
  destruct (proj2 (get_is_Some buf (offset + k)) ltac:(lia)) as [? ->].
  reflexivity.
Qed.

Lemma ushr8 v : Js.ushr v 8 = Js.ToUint32 v / 2 ^ 8.
Proof. unfold Js.ushr. now rewrite Z.shiftr_div_pow2. Qed.

Lemma ToUint32_div8 u : 0 <= u < 2 ^ 32 -> Js.ToUint32 (u / 2 ^ 8) = u / 2 ^ 8.
Proof.
  intros H. apply JsFacts.ToUint32_small.
  change (2 ^ 8) with 256. change (2 ^ 32) with 4294967296 in *.
  Z.div_mod_to_equations. lia.
Qed.

(** What a checked 8-bit store leaves behind. *)
Lemma writeUInt8_spec buf value offset :
  0 <= value <= 255 -> 0 <= offset < Buf.length buf ->
  exists buf',
    Buf.writeUInt8 buf value offset = Ok buf'
    /\ Buf.length buf' = Buf.length buf
    /\ Buf.get buf' offset = Some value
    /\ (forall i, i <> offset -> Buf.get buf' i = Buf.get buf i)
    /\ (Buf.wf buf -> Buf.wf buf').
Proof.
  intros Hv Ho. unfold Buf.writeUInt8, Buf.writeU_Int8.
  rewrite checkInt_ok by lia.
  eexists; split; [reflexivity|].
  split; [apply length_set|].
  split; [rewrite get_set_eq by lia; f_equal; apply Z.mod_small; lia|].
  split; [intros i Hi; apply get_set_ne; lia|].
  apply wf_set.
Qed.

(** What a checked 32-bit little-endian store leaves behind. *)
Lemma writeU_Int32LE_spec buf value offset min max :
  min <= value <= max -> 0 <= offset -> offset + 3 < Buf.length buf ->
  exists buf',
    Buf.writeU_Int32LE buf value offset min max = Ok buf'
    /\ Buf.length buf' = Buf.length buf
    /\ Buf.get buf' offset = Some (Js.ToUint32 value mod 256)
    /\ Buf.get buf' (offset + 1) = Some ((Js.ToUint32 value / 2 ^ 8) mod 256)
    /\ Buf.get buf' (offset + 2) = Some ((Js.ToUint32 value / 2 ^ 16) mod 256)
    /\ Buf.get buf' (offset + 3) = Some ((Js.ToUint32 value / 2 ^ 24) mod 256)
    /\ (forall i, i < offset \/ offset + 4 <= i ->
                  Buf.get buf' i = Buf.get buf i)
    /\ (Buf.wf buf -> Buf.wf buf').
Proof.
  intros Hv Ho Hlen. unfold Buf.writeU_Int32LE.
  rewrite checkInt_ok by lia.
  eexists; split; [reflexivity|].
  assert (HU : 0 <= Js.ToUint32 value < 2 ^ 32)
    by (apply Z.mod_pos_bound; lia).
  set (U := Js.ToUint32 value) in *.
  assert (H1 : Js.ushr value 8 = U / 2 ^ 8) by apply ushr8.
  assert (H2 : Js.ushr (Js.ushr value 8) 8 = U / 2 ^ 16).
  { rewrite ushr8, H1, ToUint32_div8 by exact HU.
    rewrite Z.div_div by lia. reflexivity. }
  assert (H3 : Js.ushr (Js.ushr (Js.ushr value 8) 8) 8 = U / 2 ^ 24).
  { rewrite ushr8, H2.
    rewrite JsFacts.ToUint32_small.
    - rewrite Z.div_div by lia. reflexivity.
    - change (2 ^ 16) with 65536. change (2 ^ 32) with 4294967296 in *.
      Z.div_mod_to_equations. lia. }
  rewrite H3, H2, H1.
  assert (HUm : U mod 256 = value mod 256).
  { unfold U, Js.ToUint32. apply Z.mod_mod_divide.
    exists 16777216. reflexivity. }
  repeat split.
  - now rewrite !length_set.
  - rewrite !get_set_ne by lia. rewrite get_set_eq by lia. now rewrite HUm.
  - rewrite !get_set_ne by lia.
    rewrite get_set_eq by (rewrite !length_set; lia). reflexivity.
  - rewrite !get_set_ne by lia.
    rewrite get_set_eq by (rewrite !length_set; lia). reflexivity.
  - rewrite get_set_eq by (rewrite !length_set; lia). reflexivity.
  - intros i Hi. rewrite !get_set_ne by lia. reflexivity.
  - intros Hwf. now repeat apply wf_set.
Qed.

End BufFacts.

(** ** Counting loops *)

Module LoopFacts.

Lemma for_from_inv {S : Type} (P : Z -> S -> Prop)
    (body : Z -> S -> result S) (fuel : nat) :
  forall (i : Z) (s : S),
    P i s ->
    (forall j t, i <= j < i + Z.of_nat fuel -> P j t ->
                 exists t', body j t = Ok t' /\ P (j + 1) t') ->
    exists s', Js.for_from fuel i body s = Ok s' /\ P (i + Z.of_nat fuel) s'.
Proof.
  induction fuel as [|fuel IH]; intros i s Hs Hstep.
  - exists s. simpl. rewrite Z.add_0_r. auto.
  - destruct (Hstep i s ltac:(lia) Hs) as (t & Hbody & Ht).
    destruct (IH (i + 1) t Ht) as (s' & Hrun & Hs').
    { intros j u Hj Hu. apply Hstep; [lia | exact Hu]. }
    exists s'. split.
    + simpl. rewrite Hbody. exact Hrun.
    + replace (i + Z.of_nat (Datatypes.S fuel)) with (i + 1 + Z.of_nat fuel)
        by lia.
      exact Hs'.
Qed.

Lemma for_lt_inv {S : Type} (P : Z -> S -> Prop)
    (body : Z -> S -> result S) (bound : Z) (s : S) :
  0 <= bound ->
  P 0 s ->
  (forall j t, 0 <= j < bound -> P j t ->
               exists t', body j t = Ok t' /\ P (j + 1) t') ->
  exists s', Js.for_lt bound body s = Ok s' /\ P bound s'.
Proof.
  intros Hb Hs Hstep. unfold Js.for_lt.
  destruct (for_from_inv P body (Z.to_nat bound) 0 s Hs) as (s' & Hrun & Hs').
  - intros j t Hj. apply Hstep. lia.
  - exists s'. split; [exact Hrun|].
    rewrite Z2Nat.id in Hs' by lia. exact Hs'.
Qed.

End LoopFacts.

(** ** Geometry of the payload *)

Module Geometry.

Lemma beforeb_spec x' y' x y : beforeb x' y' x y = true <-> before x' y' x y.
Proof. unfold beforeb, before. lia. Qed.

Lemma beforeb_false x' y' x y :
  beforeb x' y' x y = false <-> ~ before x' y' x y.
Proof. unfold beforeb, before. lia. Qed.

Lemma stride_width32 W :
  (if Z.rem W 32 =? 0 then W / 32 else W / 32 + 1) * 4 = getRowStride W.
Proof.
  unfold getRowStride. destruct (Z.eqb_spec (Z.rem W 32) 0) as [H|H]; [|lia].
  apply Z.rem_divide in H; [|lia]. destruct H as [q ->].
  replace (q * 32) with (q * 4 * 8) by lia.
  rewrite Z.div_mul by lia.
  replace (q * 4 * 8) with (q * 32) by lia.
  rewrite Z.div_mul by lia. reflexivity.
Qed.

Lemma stride_covers W : 0 <= W -> W <= 8 * getRowStride W.
Proof.
  intros HW. unfold getRowStride.
  destruct (Z.eqb_spec (Z.rem W 32) 0) as [H|H].
  - rewrite Z.rem_mod_nonneg in H by lia.
    Z.div_mod_to_equations. lia.
  - Z.div_mod_to_equations. lia.
Qed.

Lemma stride_nonneg W : 0 <= W -> 0 <= getRowStride W.
Proof.
  intros HW. unfold getRowStride.
  destruct (Z.rem W 32 =? 0); Z.div_mod_to_equations; lia.
Qed.

Lemma stride_16 : getRowStride 16 = 4.
Proof. reflexivity. Qed.

Lemma stride_33 : getRowStride 33 = 8.
Proof. reflexivity. Qed.

Lemma bitNum_line W x y :
  0 <= x < W -> ((W - y - 1) * W + x) / W = W - y - 1.
Proof.
  intros Hx. rewrite Z.div_add_l by lia.
  rewrite Z.div_small by lia. lia.
Qed.

Lemma bitNum_offset W x y :
  0 <= x < W -> 0 <= y < W -> Z.rem ((W - y - 1) * W + x) W = x.
Proof.
  intros Hx Hy. rewrite Z.rem_mod_nonneg by nia.
  rewrite Z.add_comm, Z.mod_add by lia. apply Z.mod_small, Hx.
Qed.

(** Rows of the flipped image are [W] pixels apart. *)
Lemma row_apart W y y' :
  0 <= W -> y' < y -> (W - 1 - y) * W + W <= (W - 1 - y') * W.
Proof. intros. nia. Qed.

Lemma xorPos_range W x y :
  0 <= x < W -> 0 <= y < W -> 0 <= xorPos W x y <= W * W * 4 - 4.
Proof. intros Hx Hy. unfold xorPos. nia. Qed.

Lemma xorPos_apart W x y x' y' :
  0 <= x < W -> 0 <= y < W -> 0 <= x' < W -> 0 <= y' < W ->
  (x', y') <> (x, y) ->
  xorPos W x' y' + 4 <= xorPos W x y \/ xorPos W x y + 4 <= xorPos W x' y'.
Proof.
  intros Hx Hy Hx' Hy' Hne. unfold xorPos.
  destruct (Z.lt_trichotomy y y') as [Hlt | [-> | Hgt]].
  - pose proof (row_apart W y' y ltac:(lia) Hlt). lia.
  - assert (x <> x') by congruence. lia.
  - pose proof (row_apart W y y' ltac:(lia) Hgt). lia.
Qed.

Lemma pxPos_range W x y :
  0 <= x < W -> 0 <= y < W -> 0 <= (y * W + x) * 4 <= W * W * 4 - 4.
Proof. intros Hx Hy. nia. Qed.

Lemma andPos_range W x y :
  0 <= x < W -> 0 <= y < W ->
  W * W * 4 <= andPos W x y <= W * W * 4 + getRowStride W * W - 1.
Proof.
  intros Hx Hy. unfold andPos.
  pose proof (stride_covers W ltac:(lia)).
  assert (0 <= x / 8 < getRowStride W) by (Z.div_mod_to_equations; lia).
  nia.
Qed.

(** Two pixels share a mask byte only in the same row and the same group
    of eight columns. *)
Lemma andPos_same W x y x' y' :
  0 <= x < W -> 0 <= y < W -> 0 <= x' < W -> 0 <= y' < W ->
  andPos W x' y' = andPos W x y -> y' = y /\ x' / 8 = x / 8.
Proof.
  intros Hx Hy Hx' Hy' Heq. unfold andPos in Heq.
  pose proof (stride_covers W ltac:(lia)).
  assert (0 <= x / 8 < getRowStride W) by (Z.div_mod_to_equations; lia).
  assert (0 <= x' / 8 < getRowStride W) by (Z.div_mod_to_equations; lia).
  assert (y' = y) by nia. subst y'. split; [reflexivity | lia].
Qed.

Lemma same_group_bit x x' :
  x' / 8 = x / 8 -> x' <> x -> 7 - x' mod 8 <> 7 - x mod 8.
Proof. intros Hd Hne. Z.div_mod_to_equations. lia. Qed.

End Geometry.

(** ** The pixel encoder on a well-formed raster *)

Module XorFacts.
Section Xor.

Variables (data : list Z) (W : Z).
Hypothesis HW : 0 <= W.
Hypothesis Hlen : Buf.length data = W * W * 4.
Hypothesis Hwf : Buf.wf data.

Lemma pixel_defined x y :
  0 <= x < W -> 0 <= y < W ->
  exists r g b a,
    getColorPixel data x y W = mkPixel (Some r) (Some g) (Some b) (Some a)
    /\ 0 <= r < 256 /\ 0 <= g < 256 /\ 0 <= b < 256 /\ 0 <= a < 256.
Proof.
  intros Hx Hy. unfold getColorPixel.
  pose proof (Geometry.pxPos_range W x y Hx Hy) as Hp.
  set (p := (y * W + x) * 4) in *.
  destruct (proj2 (BufFacts.get_is_Some data (p + 0)) ltac:(lia)) as [r Hr].
  destruct (proj2 (BufFacts.get_is_Some data (p + 1)) ltac:(lia)) as [g Hg].
  destruct (proj2 (BufFacts.get_is_Some data (p + 2)) ltac:(lia)) as [b Hb].
  destruct (proj2 (BufFacts.get_is_Some data (p + 3)) ltac:(lia)) as [a Ha].
  exists r, g, b, a. rewrite Hr, Hg, Hb, Ha.
  eauto 10 using BufFacts.get_wf.
Qed.

Lemma xorStep_frame x y buf :
  0 <= x < W -> 0 <= y < W ->
  Buf.length buf = W * W * 4 + getRowStride W * W ->
  exists buf',
    xorStep data W W x y buf = Ok buf'
    /\ Buf.length buf' = Buf.length buf
    /\ (forall i, i < xorPos W x y \/ xorPos W x y + 4 <= i ->
                  Buf.get buf' i = Buf.get buf i)
    /\ (Buf.wf buf -> Buf.wf buf').
Proof.
  intros Hx Hy HL.
  pose proof (Geometry.xorPos_range W x y Hx Hy) as Hpos.
  pose proof (Geometry.stride_nonneg W HW) as Hst.
  unfold xorStep.
  replace (((W - y - 1) * W + x) * 4) with (xorPos W x y)
    by (unfold xorPos; lia).
  match goal with
  | |- context [Buf.writeInt32LE buf ?v _] =>
      destruct (BufFacts.writeU_Int32LE_spec buf v (xorPos W x y) _ _
                  (JsFacts.or_range _ _))
        as (buf' & Hw & HL' & _ & _ & _ & _ & Hframe & Hwf');
      [lia | nia |]
  end.
  exists buf'. auto.
Qed.

Lemma before_next x y x' y' :
  before x' y' (x + 1) y -> before x' y' x y \/ (x' = x /\ y' = y).
Proof. unfold before. lia. Qed.

Lemma xorStep_inv x y buf :
  0 <= x < W -> 0 <= y < W ->
  XInv data W y x buf ->
  exists buf', xorStep data W W x y buf = Ok buf' /\ XInv data W y (x + 1) buf'.
Proof.
  intros Hx Hy (HL & Hbw & Hdone & Hmask).
  destruct (pixel_defined x y Hx Hy) as (vr & vg & vb & va & Hpx & Hr & Hg & Hb & Ha).
  pose proof (Geometry.xorPos_range W x y Hx Hy) as Hpos.
  pose proof (Geometry.stride_nonneg W HW) as Hst.
  unfold xorStep. rewrite Hpx. cbn [r g b a].
  unfold Js.ToNumeric32, default.
  replace (((W - y - 1) * W + x) * 4) with (xorPos W x y)
    by (unfold xorPos; lia).
  set (v := Js.or (Js.or (Js.or vb (Js.shl vg 8)) (Js.shl vr 16)) (Js.shl va 24)).
  assert (Hv : -2147483648 <= v <= 2147483647) by apply JsFacts.or_range.
  destruct (BufFacts.writeU_Int32LE_spec buf v (xorPos W x y) _ _ Hv)
    as (buf' & Hw & HL' & G0 & G1 & G2 & G3 & Hframe & Hwf');
    [lia | nia |].
  assert (HU : Js.ToUint32 v = packed vr vg vb va)
    by (apply JsFacts.newColor_bits; assumption).
  rewrite HU in G0, G1, G2, G3.
  destruct (JsFacts.packed_bytes vr vg vb va Hr Hg Hb Ha) as (B0 & B1 & B2 & B3).
  rewrite B0 in G0. rewrite B1 in G1. rewrite B2 in G2. rewrite B3 in G3.
  exists buf'. split; [exact Hw|].
  split; [lia|]. split; [auto|]. split.
  - intros x' y' Hx' Hy' Hbef.
    destruct (before_next _ _ _ _ Hbef) as [Hold | [-> ->]].
    + intros r' g' b' a' Hpx'.
      assert (Hne : (x', y') <> (x, y)).
      { intros E. inversion E; subst. unfold before in Hold. lia. }
      pose proof (Geometry.xorPos_apart W x y x' y' Hx Hy Hx' Hy' Hne).
      destruct (Hdone x' y' Hx' Hy' Hold r' g' b' a' Hpx') as (O0 & O1 & O2 & O3).
      rewrite !Hframe by lia. auto.
    + intros r' g' b' a' Hpx'. rewrite Hpx in Hpx'.
      inversion Hpx'; subst. auto.
  - intros i Hi. rewrite Hframe by lia. apply Hmask, Hi.
Qed.

Lemma XInv_next_row y buf :
  XInv data W y W buf -> XInv data W (y + 1) 0 buf.
Proof.
  intros (HL & Hbw & Hdone & Hmask).
  split; [exact HL|]. split; [exact Hbw|]. split; [|exact Hmask].
  intros x' y' Hx' Hy' Hbef. apply Hdone; auto. unfold before in *. lia.
Qed.

Lemma xorLoop_inv buf :
  Buf.length buf = W * W * 4 + getRowStride W * W ->
  Buf.wf buf ->
  (forall i, W * W * 4 <= i < W * W * 4 + getRowStride W * W ->
             Buf.get buf i = Some 0) ->
  exists buf',
    Js.for_lt W (fun y => Js.for_lt W (fun x => xorStep data W W x y)) buf
    = Ok buf'
    /\ XInv data W W 0 buf'.
Proof.
  intros HL Hbw Hz.
  apply (LoopFacts.for_lt_inv (fun y => XInv data W y 0)); [exact HW | |].
  - split; [exact HL|]. split; [exact Hbw|]. split; [|exact Hz].
    intros x' y' Hx' Hy' Hbef. unfold before in Hbef. lia.
  - intros y t Hy Ht.
    destruct (LoopFacts.for_lt_inv (fun x => XInv data W y x)
                (fun x => xorStep data W W x y) W t HW Ht) as (t' & Hrun & Ht').
    + intros x u Hxr Hu. apply xorStep_inv; assumption.
    + exists t'. split; [exact Hrun | apply XInv_next_row, Ht'].
Qed.

End Xor.
End XorFacts.

Module AndFacts.
Section And.

Variables (data : list Z) (W : Z).
Hypothesis HW : 0 <= W.

Lemma alphaBit_range x y : 0 <= alphaBit data W x y <= 1.
Proof. unfold alphaBit. destruct (Js.gt0 _); lia. Qed.

(** One mask step ORs the pixel's bit into its byte. *)
Lemma andStep_or x y buf :
  0 <= x < W -> 0 <= y < W ->
  Buf.length buf = W * W * 4 + getRowStride W * W ->
  Buf.wf buf ->
  exists old,
    Buf.get buf (andPos W x y) = Some old
    /\ 0 <= old < 256
    /\ 0 <= Z.lor old (alphaBit data W x y * 2 ^ (7 - x mod 8)) < 256
    /\ andStep data (W * W * 4) W W x y buf
       = Ok (Buf.set buf (andPos W x y)
               (Z.lor old (alphaBit data W x y * 2 ^ (7 - x mod 8)))).
Proof.
  intros Hx Hy HL Hbw.
  pose proof (Geometry.andPos_range W x y Hx Hy) as Hpos.
  destruct (proj2 (BufFacts.get_is_Some buf (andPos W x y)) ltac:(lia))
    as [old Hold].
  pose proof (BufFacts.get_wf _ _ _ Hbw Hold) as Hrange.
  pose proof (alphaBit_range x y) as Hbit.
  assert (Hk : 0 <= 7 - x mod 8 <= 7) by (Z.div_mod_to_equations; lia).
  pose proof (JsFacts.lor_byte_range old _ _ Hrange Hbit Hk) as Hnew.
  exists old. split; [exact Hold|]. split; [exact Hrange|].
  split; [exact Hnew|].
  unfold andStep.
  rewrite Geometry.bitNum_line, Geometry.bitNum_offset by assumption.
  rewrite <- (Z.mul_assoc (W - y - 1)), Geometry.stride_width32.
  rewrite Z.rem_mod_nonneg by lia.
  replace (W * W * 4 + (W - y - 1) * getRowStride W + x / 8)
    with (andPos W x y) by (unfold andPos; lia).
  unfold Buf.readUInt8. rewrite Hold. cbn [mbind result_bind].
  fold (alphaBit data W x y).
  rewrite JsFacts.or_bit by assumption.
  unfold Buf.writeUInt8, Buf.writeU_Int8.
  rewrite BufFacts.checkInt_ok by lia. reflexivity.
Qed.

Lemma column_of c n : 0 <= n < 8 -> (8 * c + 7 - n) / 8 = c.
Proof. intros Hn. Z.div_mod_to_equations. lia. Qed.

Lemma bit_of c n : 0 <= n < 8 -> 7 - (8 * c + 7 - n) mod 8 = n.
Proof. intros Hn. Z.div_mod_to_equations. lia. Qed.

Lemma andStep_inv cbuf x y buf :
  0 <= x < W -> 0 <= y < W ->
  AInv data W cbuf y x buf ->
  exists buf',
    andStep data (W * W * 4) W W x y buf = Ok buf'
    /\ AInv data W cbuf y (x + 1) buf'.
Proof.
  intros Hx Hy (HL & Hbw & Hcol & Hbits).
  destruct (andStep_or x y buf Hx Hy HL Hbw)
    as (old & Hold & Hrange & Hnew & Hrun).
  pose proof (Geometry.andPos_range W x y Hx Hy) as Hpos.
  pose proof (alphaBit_range x y) as Hbit.
  eexists. split; [exact Hrun|].
  split; [rewrite BufFacts.length_set; exact HL|].
  split; [apply BufFacts.wf_set, Hbw|].
  split.
  - intros i Hi. rewrite BufFacts.get_set_ne by lia. apply Hcol, Hi.
  - intros l c n Hl Hc Hn.
    destruct (Hbits l c n Hl Hc Hn) as (v & Hv & Hvbit).
    set (p := W * W * 4 + l * getRowStride W + c) in *.
    destruct (Z.eq_dec p (andPos W x y)) as [Hsame | Hdiff].
    + (* the byte just written *)
      assert (Hlc : l = W - 1 - y /\ c = x / 8).
      { unfold p, andPos in Hsame.
        pose proof (Geometry.stride_covers W HW).
        assert (0 <= x / 8 < getRowStride W) by (Z.div_mod_to_equations; lia).
        assert (l = W - 1 - y) by nia. subst l. split; [reflexivity | lia]. }
      destruct Hlc as [-> ->].
      rewrite Hsame, BufFacts.get_set_eq by lia.
      rewrite Hsame, Hold in Hv. inversion Hv; subst v.
      eexists. split; [reflexivity|].
      rewrite Z.mod_small by lia.
      rewrite Z.lor_spec, Hvbit.
      rewrite JsFacts.bit_testbit by (Z.div_mod_to_equations; lia).
      replace (W - 1 - (W - 1 - y)) with y by lia.
      unfold maskBit.
      replace (W - 1 - (W - 1 - y)) with y by lia.
      destruct (Z.eq_dec n (7 - x mod 8)) as [-> | Hn'].
      * replace (8 * (x / 8) + 7 - (7 - x mod 8)) with x
          by (Z.div_mod_to_equations; lia).
        rewrite Z.eqb_refl.
        assert (beforeb x y x y = false)
          by (apply Geometry.beforeb_false; unfold before; lia).
        assert (beforeb x y (x + 1) y = true)
          by (apply Geometry.beforeb_spec; unfold before; lia).
        destruct (Z.ltb_spec x W); [|lia].
        rewrite H, H0. destruct (alphaBit data W x y =? 1); reflexivity.
      * assert (Hx' : 8 * (x / 8) + 7 - n <> x)
          by (Z.div_mod_to_equations; lia).
        destruct (Z.eqb_spec n (7 - x mod 8)); [contradiction|].
        rewrite andb_false_r, orb_false_r. f_equal.
        unfold beforeb. lia.
    + (* another byte *)
      exists v. split.
      * rewrite BufFacts.get_set_ne by lia. exact Hv.
      * rewrite Hvbit. f_equal.
        assert (~ (8 * c + 7 - n = x /\ W - 1 - l = y)).
        { intros [Ex Ey]. apply Hdiff. unfold p, andPos.
          rewrite <- Ex, column_of by lia. nia. }
        unfold beforeb. lia.
Qed.

Lemma AInv_next_row cbuf y buf :
  AInv data W cbuf y W buf -> AInv data W cbuf (y + 1) 0 buf.
Proof.
  intros (HL & Hbw & Hcol & Hbits).
  split; [exact HL|]. split; [exact Hbw|]. split; [exact Hcol|].
  intros l c n Hl Hc Hn.
  destruct (Hbits l c n Hl Hc Hn) as (v & Hv & Hvbit).
  exists v. split; [exact Hv|]. rewrite Hvbit.
  unfold maskBit.
  destruct (Z.ltb_spec (8 * c + 7 - n) W); [|reflexivity].
  f_equal. unfold beforeb. lia.
Qed.

Lemma andLoop_inv cbuf :
  Buf.length cbuf = W * W * 4 + getRowStride W * W ->
  Buf.wf cbuf ->
  (forall i, W * W * 4 <= i < W * W * 4 + getRowStride W * W ->
             Buf.get cbuf i = Some 0) ->
  exists out,
    Js.for_lt W (fun y =>
      Js.for_lt W (fun x => andStep data (W * W * 4) W W x y)) cbuf
    = Ok out
    /\ AInv data W cbuf W 0 out.
Proof.
  intros HL Hbw Hz.
  apply (LoopFacts.for_lt_inv (fun y => AInv data W cbuf y 0)); [exact HW | |].
  - split; [exact HL|]. split; [exact Hbw|]. split; [reflexivity|].
    intros l c n Hl Hc Hn. exists 0. split.
    + apply Hz. nia.
    + rewrite Z.bits_0.
      assert (beforeb (8 * c + 7 - n) (W - 1 - l) 0 0 = false)
        by (unfold beforeb; lia).
      rewrite H. symmetry. apply andb_false_r.
  - intros y t Hy Ht.
    destruct (LoopFacts.for_lt_inv (fun x => AInv data W cbuf y x)
                (fun x => andStep data (W * W * 4) W W x y) W t HW Ht)
      as (t' & Hrun & Ht').
    + intros x u Hxr Hu. apply andStep_inv; assumption.
    + exists t'. split; [exact Hrun | apply AInv_next_row, Ht'].
Qed.

End And.
End AndFacts.

Module DibFacts.

Lemma alloc_ok n :
  0 <= n -> Buf.alloc n = Ok (replicate (Z.to_nat n) 0).
Proof. intros H. unfold Buf.alloc. destruct (Z.ltb_spec n 0); [lia | reflexivity]. Qed.

(** The three phases of [getDib] on a well-formed raster. *)
Lemma getDib_run data info W :
  square_rgba8 data info W ->
  exists buf0 cbuf out,
    Buf.alloc (size info + getRowStride (width info) * width info) = Ok buf0
    /\ Js.for_lt W (fun y => Js.for_lt W (fun x => xorStep data W W x y)) buf0
       = Ok cbuf
    /\ XInv data W W 0 cbuf
    /\ getDib data info = Ok out
    /\ AInv data W cbuf W 0 out.
Proof.
  intros (Hw & _ & Hs & Hlen & Hwf & HW).
  pose proof (Geometry.stride_nonneg W HW) as Hst.
  set (L := W * W * 4 + getRowStride W * W).
  assert (HL : 0 <= L) by (unfold L; nia).
  set (buf0 := replicate (Z.to_nat L) 0).
  assert (Hlen0 : Buf.length buf0 = L).
  { unfold Buf.length, buf0. rewrite length_replicate. lia. }
  destruct (XorFacts.xorLoop_inv data W HW Hlen Hwf buf0 Hlen0)
    as (cbuf & Hxor & HX).
  { apply BufFacts.wf_replicate. }
  { intros i Hi. apply BufFacts.get_replicate. fold L in Hi. lia. }
  destruct HX as (HLc & Hwfc & Hdone & Hzero).
  destruct (AndFacts.andLoop_inv data W HW cbuf HLc Hwfc Hzero)
    as (out & Hand & HA).
  exists buf0, cbuf, out.
  assert (Halloc : Buf.alloc (size info + getRowStride (width info) * width info)
                   = Ok buf0).
  { rewrite Hw, Hs. fold L. apply alloc_ok, HL. }
  split; [exact Halloc|]. split; [exact Hxor|].
  split; [exact (conj HLc (conj Hwfc (conj Hdone Hzero)))|]. split; [|exact HA].
  unfold getDib. rewrite Halloc. cbn [mbind result_bind].
  rewrite Hw, Hs, Hxor. cbn [mbind result_bind].
  rewrite Hand. reflexivity.
Qed.

End DibFacts.

(** ** The claims about the pixel encoder *)

(** C1. On a square RGBA8 raster of width [W], the pixel at column [x],
    row [y] (top-down), whose channels [(r, g, b, a)] are the four raster
    bytes at [(y * W + x) * 4 .. + 3], ends up in the output of [getDib] as
    the four bytes [b, g, r, a], in ascending address, at byte offset
    [((W - 1 - y) * W + x) * 4] (rows stored bottom-up).  The word written
    is [b | (g << 8) | (r << 16) | (a << 24)], whose 32-bit pattern is
    [b + g * 2^8 + r * 2^16 + a * 2^24] for every alpha, also [a >= 128]. *)
Theorem getDib_color_map (data : list Z) (info : OutputInfo)
    (W x y r g b a : Z) :
  square_rgba8 data info W ->
  0 <= x < W -> 0 <= y < W ->
  Buf.get data ((y * W + x) * 4) = Some r ->
  Buf.get data ((y * W + x) * 4 + 1) = Some g ->
  Buf.get data ((y * W + x) * 4 + 2) = Some b ->
  Buf.get data ((y * W + x) * 4 + 3) = Some a ->
  exists out,
    getDib data info = Ok out
    /\ Buf.get out (((W - 1 - y) * W + x) * 4) = Some b
    /\ Buf.get out (((W - 1 - y) * W + x) * 4 + 1) = Some g
    /\ Buf.get out (((W - 1 - y) * W + x) * 4 + 2) = Some r
    /\ Buf.get out (((W - 1 - y) * W + x) * 4 + 3) = Some a
    /\ Js.ToUint32
         (Js.or (Js.or (Js.or b (Js.shl g 8)) (Js.shl r 16)) (Js.shl a 24))
       = b + g * 2 ^ 8 + r * 2 ^ 16 + a * 2 ^ 24.
Proof.
  intros Hsq Hx Hy Dr Dg Db Da.
  destruct (DibFacts.getDib_run data info W Hsq)
    as (buf0 & cbuf & out & _ & _ & HX & Hrun & HA).
  destruct HX as (_ & _ & Hdone & _).
  destruct HA as (_ & _ & Hcol & _).
  destruct Hsq as (_ & _ & _ & Hlen & Hwf & HW).
  destruct (XorFacts.pixel_defined data W Hlen Hwf x y Hx Hy)
    as (r' & g' & b' & a' & Hpx & Hr & Hg & Hb & Ha).
  (* the channels the encoder reads are the bytes of the raster *)
  pose proof Hpx as Hread. unfold getColorPixel in Hread.
  rewrite Z.add_0_r, Dr, Dg, Db, Da in Hread.
  inversion Hread; subst r' g' b' a'.
  destruct (Hdone x y Hx Hy ltac:(unfold before; lia) r g b a Hpx)
    as (G0 & G1 & G2 & G3).
  pose proof (Geometry.xorPos_range W x y Hx Hy) as Hpos.
  unfold xorPos in *.
  exists out. split; [exact Hrun|].
  rewrite !Hcol by lia.
  split; [exact G0|]. split; [exact G1|]. split; [exact G2|].
  split; [exact G3|].
  apply JsFacts.newColor_bits; assumption.
Qed.

(** C1, at the 1x1 image with [(r, g, b, a) = (10, 20, 30, 255)], whose
    first four output bytes are [30, 20, 10, 255], and at the pixel in
    column 1 of row 0 of a 2x2 image, which lands in the second stored row. *)
Lemma getDib_color_map_1x1 :
  (exists out,
     getDib [10; 20; 30; 255] (mkOutputInfo "raw" 4 1 1) = Ok out
     /\ Buf.get out 0 = Some 30
     /\ Buf.get out 1 = Some 20
     /\ Buf.get out 2 = Some 10
     /\ Buf.get out 3 = Some 255
     /\ Js.ToUint32
          (Js.or (Js.or (Js.or 30 (Js.shl 20 8)) (Js.shl 10 16)) (Js.shl 255 24))
        = 30 + 20 * 2 ^ 8 + 10 * 2 ^ 16 + 255 * 2 ^ 24)
  /\ (exists out,
        getDib demo2x2 demo2x2_info = Ok out
        /\ Buf.get out 12 = Some 7
        /\ Buf.get out 13 = Some 6
        /\ Buf.get out 14 = Some 5
        /\ Buf.get out 15 = Some 128).
Proof.
  split.
  - apply (getDib_color_map [10; 20; 30; 255] (mkOutputInfo "raw" 4 1 1)
             1 0 0 10 20 30 255).
    + unfold square_rgba8, Buf.wf, Buf.is_byte. simpl.
      repeat split; try reflexivity; try lia.
      repeat constructor; lia.
    + lia.
    + lia.
    + reflexivity.
    + reflexivity.
    + reflexivity.
    + reflexivity.
  - destruct (getDib_color_map demo2x2 demo2x2_info 2 1 0 5 6 7 128)
      as (out & Hrun & G0 & G1 & G2 & G3 & _).
    + unfold square_rgba8, Buf.wf, Buf.is_byte. simpl.
      repeat split; try reflexivity; try lia.
      repeat constructor; lia.
    + lia.
    + lia.
    + reflexivity.
    + reflexivity.
    + reflexivity.
    + reflexivity.
    + exists out. auto.
Defined.

(** C2. On a square RGBA8 raster of width [W], the transparency mask that
    [getDib] writes after the colour map holds, for the pixel at [(x, y)]
    whose alpha [alpha] is the raster byte at [(y * W + x) * 4 + 3], bit 0
    when [alpha > 0] and bit 1 when [alpha = 0].
    The bit sits in mask row [W - 1 - y] (bottom-up), byte [x / 8] of the
    row, bit position [7 - x mod 8].  A row is [W / 8] bytes when
    [W mod 32 = 0] and [4 * (W / 32 + 1)] bytes otherwise (4 for 16, 8 for
    33).  The mask region is all zero when the mask loops start, and each
    mask step ORs the pixel's bit into its byte. *)
Theorem getDib_and_mask (data : list Z) (info : OutputInfo)
    (W x y alpha : Z) :
  square_rgba8 data info W ->
  0 <= x < W -> 0 <= y < W ->
  Buf.get data ((y * W + x) * 4 + 3) = Some alpha ->
  let stride := getRowStride W in
  let pos := W * W * 4 + (W - 1 - y) * stride + x / 8 in
  let bit := if 0 <? alpha then 0 else 1 in
  stride = (if W mod 32 =? 0 then W / 8 else 4 * (W / 32 + 1))
  /\ getRowStride 16 = 4
  /\ getRowStride 33 = 8
  /\ exists buf0 cbuf out,
       Buf.alloc (size info + getRowStride (width info) * width info) = Ok buf0
       /\ Js.for_lt W (fun y => Js.for_lt W (fun x => xorStep data W W x y)) buf0
          = Ok cbuf
       /\ (forall i, W * W * 4 <= i < W * W * 4 + stride * W ->
                     Buf.get cbuf i = Some 0)
       /\ getDib data info = Ok out
       /\ (exists v,
             Buf.get out pos = Some v
             /\ (0 < alpha -> Z.testbit v (7 - x mod 8) = false)
             /\ (alpha = 0 -> Z.testbit v (7 - x mod 8) = true))
       /\ (forall buf,
             Buf.length buf = W * W * 4 + stride * W -> Buf.wf buf ->
             exists old,
               Buf.get buf pos = Some old
               /\ andStep data (size info) W W x y buf
                  = Ok (Buf.set buf pos (Z.lor old (bit * 2 ^ (7 - x mod 8))))).
Proof.
  intros Hsq Hx Hy Hbyte stride pos bit.
  assert (HW : 0 <= W) by lia.
  (* the alpha the encoder reads is that byte of the raster *)
  assert (Halpha : a (getColorPixel data x y W) = Some alpha) by exact Hbyte.
  assert (Hbit : alphaBit data W x y = bit).
  { unfold alphaBit, bit. rewrite Halpha. reflexivity. }
  split.
  { unfold stride, getRowStride. rewrite Z.rem_mod_nonneg by lia. reflexivity. }
  split; [reflexivity|]. split; [reflexivity|].
  destruct (DibFacts.getDib_run data info W Hsq)
    as (buf0 & cbuf & out & Halloc & Hxor & HX & Hrun & HA).
  exists buf0, cbuf, out.
  split; [exact Halloc|]. split; [exact Hxor|].
  split; [destruct HX as (_ & _ & _ & Hz); exact Hz|].
  split; [exact Hrun|].
  pose proof (Geometry.stride_covers W HW) as Hcov.
  split.
  - destruct HA as (_ & _ & _ & Hbits).
    destruct (Hbits (W - 1 - y) (x / 8) (7 - x mod 8)) as (v & Hv & Hvbit).
    { lia. }
    { fold stride in Hcov. unfold stride in *. Z.div_mod_to_equations. lia. }
    { Z.div_mod_to_equations. lia. }
    exists v. split; [exact Hv|].
    unfold maskBit in Hvbit.
    replace (8 * (x / 8) + 7 - (7 - x mod 8)) with x in Hvbit
      by (Z.div_mod_to_equations; lia).
    replace (W - 1 - (W - 1 - y)) with y in Hvbit by lia.
    rewrite Hbit in Hvbit.
    assert (Hb : beforeb x y 0 W = true) by (unfold beforeb; lia).
    rewrite Hb, andb_true_r in Hvbit.
    destruct (Z.ltb_spec x W); [|lia].
    rewrite Hvbit. unfold bit. split.
    + intros Hpos. destruct (Z.ltb_spec 0 alpha); [reflexivity | lia].
    + intros ->. reflexivity.
  - intros buf HL Hbw.
    destruct (AndFacts.andStep_or data W HW x y buf Hx Hy HL Hbw)
      as (old & Hold & _ & _ & Hstep).
    exists old. split; [exact Hold|].
    destruct Hsq as (_ & _ & Hs & _). rewrite Hs, <- Hbit. exact Hstep.
Qed.

(** C2 at a 2x2 image whose only transparent pixel is in column 1 of row
    0: its bit is bit 6 of the first byte of the second mask row, and the
    bit of the opaque pixel in column 0 of row 1, bit 7 of the first byte
    of the first mask row, is clear. *)
Lemma getDib_and_mask_2x2 :
  exists out v w,
    getDib corner2x2 demo2x2_info = Ok out
    /\ Buf.get out (2 * 2 * 4 + (2 - 1 - 0) * getRowStride 2 + 1 / 8) = Some v
    /\ Z.testbit v (7 - 1 mod 8) = true
    /\ Buf.get out (2 * 2 * 4 + (2 - 1 - 1) * getRowStride 2 + 0 / 8) = Some w
    /\ Z.testbit w (7 - 0 mod 8) = false.
Proof.
  assert (Hsq : square_rgba8 corner2x2 demo2x2_info 2).
  { unfold square_rgba8, Buf.wf, Buf.is_byte. simpl.
    repeat split; try reflexivity; try lia.
    repeat constructor; lia. }
  destruct (getDib_and_mask corner2x2 demo2x2_info 2 1 0 0 Hsq)
    as (_ & _ & _ & _ & _ & out & _ & _ & _ & Hrun & (v & Hv & _ & Hbit) & _);
    [lia | lia | reflexivity |].
  destruct (getDib_and_mask corner2x2 demo2x2_info 2 0 1 255 Hsq)
    as (_ & _ & _ & _ & _ & out' & _ & _ & _ & Hrun' & (w & Hw & Hclear & _) & _);
    [lia | lia | reflexivity |].
  rewrite Hrun in Hrun'. inversion Hrun'; subst out'.
  exists out, v, w. split; [exact Hrun|]. split; [exact Hv|].
  split; [apply Hbit; reflexivity|]. split; [exact Hw|].
  apply Hclear. lia.
Defined.

(** C10. On a square RGBA8 raster of width [W >= 1] (buffer length
    [W * W * 4 = info.size]) every access of [getDib] is in bounds: the
    four reads of [getColorPixel] fall in [0, W*W*4 - 1] and are defined;
    the colour word is written at an offset in [0, W*W*4 - 4] and leaves
    every byte outside its four alone; the mask byte read and written lies in
    [W*W*4, W*W*4 + rowStride(W)*W - 1] and no other byte changes; no
    checked access throws, and the output has exactly the allocated length
    [info.size + rowStride(W) * W]. *)
Theorem getDib_in_bounds (data : list Z) (info : OutputInfo) (W : Z) :
  square_rgba8 data info W ->
  1 <= W ->
  let total := size info + getRowStride W * W in
  (forall x y, 0 <= x < W -> 0 <= y < W ->
     let pxPos := (y * W + x) * 4 in
     let xorAt := ((W - y - 1) * W + x) * 4 in
     let bitNum := (W - y - 1) * W + x in
     let width32 := if Z.rem W 32 =? 0 then W / 32 else W / 32 + 1 in
     let andAt := size info + bitNum / W * width32 * 4 + Z.rem bitNum W / 8 in
     (0 <= pxPos /\ pxPos + 3 <= W * W * 4 - 1)
     /\ (exists r g b a,
           getColorPixel data x y W
           = mkPixel (Some r) (Some g) (Some b) (Some a))
     /\ 0 <= xorAt <= W * W * 4 - 4
     /\ W * W * 4 <= andAt <= W * W * 4 + getRowStride W * W - 1
     /\ (forall buf, Buf.length buf = total -> Buf.wf buf ->
           (exists buf',
              xorStep data W W x y buf = Ok buf'
              /\ Buf.length buf' = total
              /\ forall i, i < xorAt \/ xorAt + 4 <= i ->
                           Buf.get buf' i = Buf.get buf i)
           /\ (exists buf',
                 andStep data (size info) W W x y buf = Ok buf'
                 /\ Buf.length buf' = total
                 /\ forall i, i <> andAt -> Buf.get buf' i = Buf.get buf i)))
  /\ exists out, getDib data info = Ok out /\ Buf.length out = total.
Proof.
  intros Hsq HW1 total.
  pose proof Hsq as (Hw & _ & Hs & Hlen & Hwf & HW).
  split.
  - intros x y Hx Hy pxPos xorAt bitNum width32 andAt.
    pose proof (Geometry.pxPos_range W x y Hx Hy) as Hpx.
    pose proof (Geometry.xorPos_range W x y Hx Hy) as Hxor.
    pose proof (Geometry.andPos_range W x y Hx Hy) as Hand.
    assert (ExorAt : xorAt = xorPos W x y) by (unfold xorAt, xorPos; lia).
    assert (EandAt : andAt = andPos W x y).
    { unfold andAt, bitNum, width32, andPos.
      rewrite Geometry.bitNum_line, Geometry.bitNum_offset by assumption.
      rewrite <- (Z.mul_assoc (W - y - 1)), Geometry.stride_width32. lia. }
    split; [unfold pxPos; lia|].
    split.
    { destruct (XorFacts.pixel_defined data W Hlen Hwf x y Hx Hy)
        as (r & g & b & a & Hp & _). eauto. }
    split; [lia|]. split; [lia|].
    intros buf HL Hbw. unfold total in HL. rewrite Hs in HL.
    split.
    + destruct (XorFacts.xorStep_frame data W HW x y buf Hx Hy HL)
        as (buf' & Hrun & HL' & Hframe & _).
      exists buf'. split; [exact Hrun|].
      split; [unfold total; rewrite Hs; lia|].
      rewrite ExorAt. exact Hframe.
    + destruct (AndFacts.andStep_or data W HW x y buf Hx Hy HL Hbw)
        as (old & Hold & _ & _ & Hrun).
      eexists. split; [rewrite Hs; exact Hrun|].
      split; [rewrite BufFacts.length_set; unfold total; rewrite Hs; lia|].
      intros i Hi. apply BufFacts.get_set_ne; lia.
  - destruct (DibFacts.getDib_run data info W Hsq)
      as (buf0 & cbuf & out & _ & _ & _ & Hrun & HA).
    exists out. split; [exact Hrun|].
    destruct HA as (HL & _). unfold total. rewrite Hs. exact HL.
Qed.

(** C10 at the 2x2 example: the encoder returns, and its output has the
    allocated length. *)
Lemma getDib_in_bounds_2x2 :
  exists out,
    getDib demo2x2 demo2x2_info = Ok out
    /\ Buf.length out = size demo2x2_info + getRowStride 2 * 2.
Proof.
  refine (proj2 (getDib_in_bounds demo2x2 demo2x2_info 2 _ _)).
  - unfold square_rgba8, Buf.wf, Buf.is_byte. simpl.
    repeat split; try reflexivity; try lia.
    repeat constructor; lia.
  - lia.
Defined.

(** ** Fixed-size records *)

Module RecordFacts.

Lemma le16_bytes v : le16 v = [v mod 256; (v / 2 ^ 8) mod 256].
Proof.
  unfold le16, Z_to_little_endian. cbn [Z.iter Pos.iter].
  rewrite !Z.land_ones, !Z.shiftr_div_pow2 by lia. reflexivity.
Qed.

Lemma le32_bytes v :
  le32 v = [v mod 256; (v / 2 ^ 8) mod 256;
            (v / 2 ^ 16) mod 256; (v / 2 ^ 24) mod 256].
Proof.
  unfold le32, Z_to_little_endian. cbn [Z.iter Pos.iter].
  rewrite !Z.land_ones, !Z.shiftr_div_pow2 by lia.
  rewrite !Z.div_div by lia. reflexivity.
Qed.

Lemma set_ToUint32 buf i v : Buf.set buf i (Js.ToUint32 v) = Buf.set buf i v.
Proof.
  unfold Buf.set, Js.ToUint32. f_equal.
  apply Z.mod_mod_divide. exists 16777216. reflexivity.
Qed.

Lemma writeU_Int8_set buf value offset min max :
  min <= value <= max -> 0 <= offset < Buf.length buf ->
  Buf.writeU_Int8 buf value offset min max = Ok (Buf.set buf offset value).
Proof.
  intros Hv Ho. unfold Buf.writeU_Int8.
  rewrite BufFacts.checkInt_ok by lia. reflexivity.
Qed.

Lemma writeU_Int16LE_set buf value offset min max :
  min <= value <= max -> 0 <= offset -> offset + 1 < Buf.length buf ->
  Buf.writeU_Int16LE buf value offset min max
  = Ok (Buf.set (Buf.set buf offset (Js.ToUint32 value))
          (offset + 1) (Js.ToUint32 value / 2 ^ 8)).
Proof.
  intros Hv Ho Hlen. unfold Buf.writeU_Int16LE.
  rewrite BufFacts.checkInt_ok by lia. cbn [mbind result_bind].
  rewrite BufFacts.ushr8, set_ToUint32. reflexivity.
Qed.

Lemma writeU_Int32LE_set buf value offset min max :
  min <= value <= max -> 0 <= offset -> offset + 3 < Buf.length buf ->
  Buf.writeU_Int32LE buf value offset min max
  = Ok (Buf.set (Buf.set (Buf.set (Buf.set buf offset (Js.ToUint32 value))
                            (offset + 1) (Js.ToUint32 value / 2 ^ 8))
                   (offset + 2) (Js.ToUint32 value / 2 ^ 16))
          (offset + 3) (Js.ToUint32 value / 2 ^ 24)).
Proof.
  intros Hv Ho Hlen. unfold Buf.writeU_Int32LE.
  rewrite BufFacts.checkInt_ok by lia. cbn [mbind result_bind].
  assert (HU : 0 <= Js.ToUint32 value < 2 ^ 32)
    by (apply Z.mod_pos_bound; lia).
  assert (H1 : Js.ushr value 8 = Js.ToUint32 value / 2 ^ 8)
    by apply BufFacts.ushr8.
  assert (H2 : Js.ushr (Js.ushr value 8) 8 = Js.ToUint32 value / 2 ^ 16).
  { rewrite BufFacts.ushr8, H1, BufFacts.ToUint32_div8 by exact HU.
    rewrite Z.div_div by lia. reflexivity. }
  assert (H3 : Js.ushr (Js.ushr (Js.ushr value 8) 8) 8
               = Js.ToUint32 value / 2 ^ 24).
  { rewrite BufFacts.ushr8, H2.
    rewrite JsFacts.ToUint32_small.
    - rewrite Z.div_div by lia. reflexivity.
    - change (2 ^ 16) with 65536. change (2 ^ 32) with 4294967296 in *.
      Z.div_mod_to_equations. lia. }
  rewrite H3, H2, H1, set_ToUint32. reflexivity.
Qed.

End RecordFacts.

Ltac in_bounds :=
  first [ lia
        | rewrite ?BufFacts.length_set; unfold Buf.length;
          simpl List.length; lia ].

(** Turns a run of checked writes on a buffer of known length into the
    list of bytes they leave. *)
Ltac run_writes :=
  unfold Buf.writeUInt8, Buf.writeUInt16LE, Buf.writeUInt32LE,
    Buf.writeInt32LE;
  repeat (first [ rewrite RecordFacts.writeU_Int8_set by in_bounds
                | rewrite RecordFacts.writeU_Int16LE_set by in_bounds
                | rewrite RecordFacts.writeU_Int32LE_set by in_bounds ];
          cbn [mbind result_bind]);
  rewrite ?JsFacts.ToUint32_small by lia;
  rewrite ?RecordFacts.le16_bytes, ?RecordFacts.le32_bytes;
  unfold Buf.set;
  with_strategy opaque [Z.modulo Z.div Z.pow] simpl.

Lemma getDir_bytes info off :
  0 <= width info -> 0 <= size info + 40 < 2 ^ 32 -> 0 <= off < 2 ^ 32 ->
  getDir info off
  = Ok ([if width info <? 256 then width info else 0;
         if width info <? 256 then width info else 0; 0; 0]
        ++ le16 1 ++ le16 32 ++ le32 (size info + 40) ++ le32 off).
Proof.
  intros Hw Hs Ho.
  set (wb := if width info <? 256 then width info else 0).
  assert (Hwb : (if 256 <=? width info then 0 else width info) = wb).
  { unfold wb.
    destruct (Z.leb_spec 256 (width info)), (Z.ltb_spec (width info) 256); lia. }
  assert (Hwbr : 0 <= wb <= 255).
  { unfold wb. destruct (Z.ltb_spec (width info) 256); lia. }
  unfold getDir. rewrite Hwb. clearbody wb.
  rewrite DibFacts.alloc_ok by lia. cbn [mbind result_bind].
  change (replicate (Z.to_nat 16) 0) with (replicate 16%nat 0).
  cbn [replicate].
  run_writes.
  rewrite (Z.mod_small wb 256) by lia. reflexivity.
Qed.

Lemma getBmpInfoHeader_bytes info :
  0 <= width info -> width info * 2 < 2 ^ 31 ->
  getBmpInfoHeader info
  = Ok (le32 40 ++ le32 (width info) ++ le32 (width info * 2)
        ++ le16 1 ++ le16 32
        ++ le32 0 ++ le32 0 ++ le32 0 ++ le32 0 ++ le32 0 ++ le32 0).
Proof.
  intros Hw Hh.
  unfold getBmpInfoHeader.
  rewrite DibFacts.alloc_ok by lia. cbn [mbind result_bind].
  change (replicate (Z.to_nat 40) 0) with (replicate 40%nat 0).
  cbn [replicate].
  change (2 ^ 31) with 2147483648 in Hh.
  run_writes.
  reflexivity.
Qed.

Lemma getHeader_bytes n :
  0 <= n < 2 ^ 16 -> getHeader n = Ok (le16 0 ++ le16 1 ++ le16 n).
Proof.
  intros Hn. unfold getHeader.
  rewrite DibFacts.alloc_ok by lia. cbn [mbind result_bind].
  change (replicate (Z.to_nat 6) 0) with (replicate 6%nat 0).
  cbn [replicate].
  change (2 ^ 16) with 65536 in Hn.
  run_writes.
  reflexivity.
Qed.

(** C4. For an image of width [W] with raw pixel byte length [rawSize] and
    file offset [off], [getDir] builds exactly 16 bytes: the width byte
    ([W] below 256, otherwise 0), the same byte again for the height, colour
    count 0, reserved 0, planes 1 and bit count 32 as 16-bit little-endian,
    the data size [rawSize + 40] and the file offset [off] as 32-bit
    little-endian.  The data size leaves out the mask bytes that [getDib]
    appends to the payload of the same image. *)
Theorem getDir_layout (info : OutputInfo) (off : Z) :
  0 <= width info ->
  0 <= size info + 40 < 2 ^ 32 ->
  0 <= off < 2 ^ 32 ->
  let W := width info in
  let rawSize := size info in
  let widthByte := if W <? 256 then W else 0 in
  exists dir,
    getDir info off = Ok dir
    /\ Buf.length dir = 16
    /\ dir = [widthByte; widthByte; 0; 0]
             ++ le16 1 ++ le16 32 ++ le32 (rawSize + 40) ++ le32 off
    /\ (forall data, square_rgba8 data info W -> 1 <= W ->
          exists dib,
            getDib data info = Ok dib
            /\ Buf.length dib = rawSize + getRowStride W * W
            /\ rawSize + 40 < 40 + Buf.length dib).
Proof.
  intros Hw Hs Ho W rawSize widthByte.
  eexists. split; [apply getDir_bytes; assumption|].
  split; [reflexivity|]. split; [reflexivity|].
  intros data Hsq HW1.
  destruct (DibFacts.getDib_run data info W Hsq)
    as (buf0 & cbuf & out & _ & _ & _ & Hrun & HA).
  destruct HA as (HL & _).
  destruct Hsq as (_ & _ & Hsz & _).
  exists out. split; [exact Hrun|].
  pose proof (Geometry.stride_covers W ltac:(lia)).
  unfold rawSize. rewrite Hsz, HL. split; [reflexivity | nia].
Qed.

(** C4 at widths 256 and 48: the stored width bytes are 0 and 48. *)
Lemma getDir_layout_256_48 :
  (exists dir,
     getDir (mkOutputInfo "raw" 262144 256 256) 70 = Ok dir
     /\ Buf.get dir 0 = Some 0 /\ Buf.get dir 1 = Some 0)
  /\ (exists dir,
        getDir (mkOutputInfo "raw" 9216 48 48) 70 = Ok dir
        /\ Buf.get dir 0 = Some 48 /\ Buf.get dir 1 = Some 48).
Proof.
  split.
  - destruct (getDir_layout (mkOutputInfo "raw" 262144 256 256) 70)
      as (dir & Hrun & _ & Hbytes & _); [simpl; lia | simpl; lia | lia |].
    exists dir. split; [exact Hrun|]. rewrite Hbytes. split; reflexivity.
  - destruct (getDir_layout (mkOutputInfo "raw" 9216 48 48) 70)
      as (dir & Hrun & _ & Hbytes & _); [simpl; lia | simpl; lia | lia |].
    exists dir. split; [exact Hrun|]. rewrite Hbytes. split; reflexivity.
Defined.

(** C8. For an image of width [W], [getBmpInfoHeader] builds exactly 40
    bytes, every field little-endian: header size 40, width [W] and height
    [W * 2] as signed 32-bit values, colour planes 1 and bit count 32 as
    16-bit values, then compression, image size, horizontal and vertical
    resolution, colours used and important colours, all 0. *)
Theorem getBmpInfoHeader_layout (info : OutputInfo) :
  0 <= width info ->
  width info * 2 < 2 ^ 31 ->
  let W := width info in
  exists hdr,
    getBmpInfoHeader info = Ok hdr
    /\ Buf.length hdr = 40
    /\ hdr = le32 40 ++ le32 W ++ le32 (W * 2) ++ le16 1 ++ le16 32
             ++ le32 0 ++ le32 0 ++ le32 0 ++ le32 0 ++ le32 0 ++ le32 0.
Proof.
  intros Hw Hh W.
  eexists. split; [apply getBmpInfoHeader_bytes; assumption|].
  split; reflexivity.
Qed.

(** C8 at width 48: the height field holds 96. *)
Lemma getBmpInfoHeader_layout_48 :
  getBmpInfoHeader (mkOutputInfo "raw" 9216 48 48)
  = Ok [40; 0; 0; 0;  48; 0; 0; 0;  96; 0; 0; 0;  1; 0;  32; 0;
        0; 0; 0; 0;  0; 0; 0; 0;  0; 0; 0; 0;  0; 0; 0; 0;
        0; 0; 0; 0;  0; 0; 0; 0].
Proof.
  destruct (getBmpInfoHeader_layout (mkOutputInfo "raw" 9216 48 48))
    as (hdr & Hrun & _ & Hbytes); [simpl; lia | simpl; lia |].
  rewrite Hrun, Hbytes. reflexivity.
Defined.

(** ** The assembler *)

Module AssemblerFacts.
Section WithLibrary.

Variable toBuffer : Sharp -> result (list Z * OutputInfo).

Lemma imagesToIco_body_run st img data info dir hdr dib :
  toBuffer (raw img) = Ok (data, info) ->
  getDir info (offset st) = Ok dir ->
  getBmpInfoHeader info = Ok hdr ->
  getDib data info = Ok dib ->
  imagesToIco_body toBuffer st img
  = ([raw img],
     Ok {| headerAndIconDir := headerAndIconDir st ++ [dir];
           imageDataArr := imageDataArr st ++ [hdr; dib];
           len := len st + Buf.length dir + Buf.length hdr + Buf.length dib;
           offset := offset st + Buf.length hdr + Buf.length dib |}).
Proof.
  intros Hbuf Hdir Hhdr Hdib.
  unfold imagesToIco_body, await_toBuffer, sync, mbind, Async_bind, mret,
    Async_ret.
  rewrite Hbuf, Hdir, Hhdr, Hdib. reflexivity.
Qed.

Lemma payloadLen_nonneg di : rendered_ok di -> 0 <= payloadLen di.2.
Proof.
  intros (_ & _ & Hs & _ & _ & HW). unfold payloadLen. rewrite Hs.
  pose proof (Geometry.stride_nonneg _ HW). nia.
Qed.

Lemma bodiesLen_nonneg rendered :
  Forall rendered_ok rendered -> 0 <= bodiesLen (snd <$> rendered).
Proof.
  induction 1 as [|di rest Hok _ IH]; cbn [fmap list_fmap bodiesLen]; [lia|].
  pose proof (payloadLen_nonneg di Hok). lia.
Qed.

Lemma getDib_dibOf di :
  rendered_ok di ->
  getDib di.1 di.2 = Ok (dibOf di) /\ Buf.length (dibOf di) = payloadLen di.2.
Proof.
  intros Hok.
  destruct (DibFacts.getDib_run di.1 di.2 _ Hok)
    as (buf0 & cbuf & out & _ & _ & _ & Hrun & HA).
  destruct HA as (HL & _).
  destruct Hok as (_ & _ & Hs & _).
  unfold dibOf, payloadLen. rewrite Hrun, Hs. auto.
Qed.

(** The loop of [imagesToIco] on images that all render: one directory
    entry and one (header, payload) pair per image, in list order. *)
Lemma for_of_run images rendered :
  Forall2 (fun img di => toBuffer (raw img) = Ok di) images rendered ->
  Forall rendered_ok rendered ->
  forall st,
    0 <= offset st ->
    offset st + bodiesLen (snd <$> rendered) < 2 ^ 32 ->
    for_of toBuffer images st
    = (raw <$> images,
       Ok {| headerAndIconDir :=
               headerAndIconDir st
               ++ zip_with dirBytes (snd <$> rendered)
                    (offsetsFrom (offset st) (snd <$> rendered));
             imageDataArr :=
               imageDataArr st
               ++ mjoin ((fun di => [hdrBytes di.2; dibOf di]) <$> rendered);
             len := len st + 16 * Z.of_nat (List.length rendered)
                    + bodiesLen (snd <$> rendered);
             offset := offset st + bodiesLen (snd <$> rendered) |}).
Proof.
  induction 1 as [|img di images rendered Hbuf _ IH]; intros Hok st Hoff Hmax.
  - simpl. unfold mret, Async_ret. destruct st; simpl.
    rewrite !app_nil_r, !Z.add_0_r. reflexivity.
  - apply Forall_cons in Hok as [Hdi Hok].
    pose proof (payloadLen_nonneg di Hdi) as Hpl.
    pose proof (bodiesLen_nonneg rendered Hok) as Hbl.
    destruct (getDib_dibOf di Hdi) as [Hdib Hdiblen].
    rewrite !fmap_cons in *. cbn [bodiesLen offsetsFrom zip_with] in *.
    rewrite length_cons, Nat2Z.inj_succ.
    set (infos := snd <$> rendered) in *.
    pose proof Hdi as (_ & _ & Hs & _ & _ & HW).
    destruct di as [data info]. cbn [fst snd] in *.
    assert (Hsz : 0 <= size info + 40 < 2 ^ 32).
    { unfold payloadLen in *. pose proof (Geometry.stride_nonneg _ HW). nia. }
    assert (Hh : width info * 2 < 2 ^ 31).
    { change (2 ^ 32) with 4294967296 in *. change (2 ^ 31) with 2147483648.
      nia. }
    cbn [for_of].
    rewrite (imagesToIco_body_run st img data info _ _ _ Hbuf
               (getDir_bytes info (offset st) HW Hsz ltac:(lia))
               (getBmpInfoHeader_bytes info HW Hh) Hdib).
    fold (dirBytes info (offset st)). fold (hdrBytes info).
    assert (Hlh : Buf.length (hdrBytes info) = 40) by reflexivity.
    assert (Hld : Buf.length (dirBytes info (offset st)) = 16) by reflexivity.
    rewrite Hlh, Hld, Hdiblen.
    unfold mbind at 1, Async_bind.
    rewrite IH; [| exact Hok | cbn [offset]; lia | cbn [offset]; lia].
    cbn [headerAndIconDir imageDataArr len offset app].
    rewrite <- !app_assoc. cbn [app mjoin list_join].
    do 2 f_equal. f_equal; lia.
Qed.

Lemma mjoin_cons (x : list Z) (l : list (list Z)) :
  mjoin (x :: l) = x ++ mjoin l.
Proof. reflexivity. Qed.

Lemma concat_exact (bufs : list (list Z)) (n : Z) :
  Buf.length (mjoin bufs) = n -> Buf.concat bufs n = mjoin bufs.
Proof.
  unfold Buf.length, Buf.concat. intros <-.
  rewrite Nat2Z.id, firstn_all, Nat.sub_diag. apply app_nil_r.
Qed.

Lemma length_dirs infos off :
  Buf.length (mjoin (zip_with dirBytes infos (offsetsFrom off infos)))
  = 16 * Z.of_nat (List.length infos).
Proof.
  unfold Buf.length. revert off.
  induction infos as [|info infos IH]; intros off; [reflexivity|].
  cbn [offsetsFrom zip_with mjoin list_join].
  rewrite length_app, length_cons, Nat2Z.inj_add, Nat2Z.inj_succ, IH.
  change (Z.of_nat (List.length (dirBytes info off))) with 16. lia.
Qed.

Lemma join_pairs (rendered : list (list Z * OutputInfo)) :
  mjoin (mjoin ((fun di => [hdrBytes di.2; dibOf di]) <$> rendered))
  = mjoin ((fun di => hdrBytes di.2 ++ dibOf di) <$> rendered).
Proof.
  induction rendered as [|di rendered IH]; [reflexivity|].
  rewrite !fmap_cons. cbn [mjoin list_join app].
  rewrite <- app_assoc. f_equal. f_equal. exact IH.
Qed.

Lemma length_bodies rendered :
  Forall rendered_ok rendered ->
  Buf.length (mjoin ((fun di => hdrBytes di.2 ++ dibOf di) <$> rendered))
  = bodiesLen (snd <$> rendered).
Proof.
  unfold Buf.length.
  induction 1 as [|di rendered Hok _ IH]; [reflexivity|].
  rewrite !fmap_cons, mjoin_cons. cbn [bodiesLen].
  destruct (getDib_dibOf di Hok) as [_ Hlen]. unfold Buf.length in Hlen.
  rewrite !length_app, !Nat2Z.inj_add, IH, Hlen.
  change (Z.of_nat (List.length (hdrBytes di.2))) with 40. lia.
Qed.

(** The container [imagesToIco] returns when every image renders: the
    file header, the directory entries, then one header and one payload per
    image, in list order. *)
Lemma imagesToIco_run images rendered :
  Forall2 (fun img di => toBuffer (raw img) = Ok di) images rendered ->
  Forall rendered_ok rendered ->
  Z.of_nat (List.length images) < 2 ^ 16 ->
  6 + 16 * Z.of_nat (List.length images) + bodiesLen (snd <$> rendered)
  < 2 ^ 32 ->
  imagesToIco toBuffer images
  = (raw <$> images,
     Ok ((le16 0 ++ le16 1 ++ le16 (Z.of_nat (List.length images)))
         ++ mjoin (zip_with dirBytes (snd <$> rendered)
                     (offsetsFrom (6 + 16 * Z.of_nat (List.length images))
                        (snd <$> rendered)))
         ++ mjoin ((fun di => hdrBytes di.2 ++ dibOf di) <$> rendered))).
Proof.
  intros Hbuf Hok HN Hmax.
  pose proof (Forall2_length _ _ _ Hbuf) as Hlen.
  unfold imagesToIco.
  rewrite getHeader_bytes by lia.
  set (header := le16 0 ++ le16 1 ++ le16 (Z.of_nat (List.length images))).
  assert (Hlh : Buf.length header = 6) by reflexivity.
  unfold sync. unfold mbind at 1. unfold Async_bind at 1.
  rewrite Hlh.
  rewrite (for_of_run images rendered Hbuf Hok);
    [| cbn [offset]; lia | cbn [offset]; lia].
  unfold mbind, Async_bind, mret, Async_ret.
  cbn [headerAndIconDir imageDataArr len offset app].
  rewrite app_nil_r.
  f_equal. f_equal.
  rewrite concat_exact.
  - rewrite mjoin_cons, join_app, join_pairs. reflexivity.
  - rewrite mjoin_cons, join_app, join_pairs.
    unfold Buf.length in *. rewrite !length_app, !Nat2Z.inj_add.
    pose proof (length_dirs (snd <$> rendered)
                  (6 + 16 * Z.of_nat (List.length images))) as Hd.
    pose proof (length_bodies rendered Hok) as Hb.
    unfold Buf.length in Hd, Hb. rewrite Hd, Hb, Hlh.
    rewrite length_fmap. lia.
Qed.

End WithLibrary.
End AssemblerFacts.

(** ** Validation and resolution selection *)

Module ToIcoFacts.
Section WithLibrary.

Variable toBuffer : Sharp -> result (list Z * OutputInfo).

Lemma toIco_rejected image e :
  toBuffer image = Throw e -> toIco toBuffer image = ([image], Throw e).
Proof.
  intros H. unfold toIco, await_toBuffer, mbind, Async_bind.
  rewrite H. reflexivity.
Qed.

Lemma toIco_invalid image d info :
  toBuffer image = Ok (d, info) ->
  format info <> "png"%string \/ width info <> height info ->
  toIco toBuffer image = ([image], Throw err).
Proof.
  intros H Hbad. unfold toIco, await_toBuffer, mbind, Async_bind.
  rewrite H.
  assert (Hcond : negb (String.eqb (format info) "png")
                  || negb (width info =? height info) = true).
  { destruct Hbad as [Hf | Hw].
    - apply (proj2 (String.eqb_neq _ _)) in Hf. rewrite Hf. reflexivity.
    - apply (proj2 (Z.eqb_neq _ _)) in Hw. rewrite Hw. apply orb_true_r. }
  rewrite Hcond. reflexivity.
Qed.

Lemma toIco_valid image d info :
  toBuffer image = Ok (d, info) ->
  format info = "png"%string ->
  width info = height info ->
  toIco toBuffer image
  = (image :: (imagesToIco toBuffer (imageList info image)).1,
     (imagesToIco toBuffer (imageList info image)).2).
Proof.
  intros H Hf Hw. unfold toIco, await_toBuffer, mbind, Async_bind.
  rewrite H.
  rewrite (proj2 (String.eqb_eq _ _) Hf), <- Hw, Z.eqb_refl.
  cbn [negb orb].
  replace (if negb (width info =? 256) then resize image 256 256 cubic
           else image)
    with (canonical info image)
    by (unfold canonical; destruct (width info =? 256); reflexivity).
  change (((fun targetSize =>
              resize (clone (canonical info image)) targetSize targetSize cubic)
             <$> sizeList) ++ [canonical info image])
    with (imageList info image).
  destruct (imagesToIco toBuffer (imageList info image)) as [calls res].
  reflexivity.
Qed.

End WithLibrary.

(** The body of the assembler loop consults the library on [raw img] only. *)
Lemma body_calls tb st img : (imagesToIco_body tb st img).1 = [raw img].
Proof.
  unfold imagesToIco_body, await_toBuffer, sync, mbind, Async_bind, mret,
    Async_ret.
  destruct (tb (raw img)) as [[data info]|e]; [|reflexivity].
  destruct (getDir info (offset st)); [|reflexivity].
  destruct (getBmpInfoHeader info); [|reflexivity].
  destruct (getDib data info); reflexivity.
Qed.

End ToIcoFacts.

(** ** Offsets and blocks of the container *)

Module OffsetFacts.

Lemma join_block (bs : list (list Z)) (i : nat) (b : list Z) :
  bs !! i = Some b ->
  drop (List.length (mjoin (take i bs))) (mjoin bs)
  = b ++ mjoin (drop (S i) bs).
Proof.
  intros H.
  rewrite <- (take_drop_middle bs i b H) at 2.
  rewrite join_app, drop_app_length. reflexivity.
Qed.

Lemma length_join_take_uniform (n : nat) (bs : list (list Z)) :
  Forall (fun b => List.length b = n) bs ->
  forall i, (i <= List.length bs)%nat ->
            List.length (mjoin (take i bs)) = (n * i)%nat.
Proof.
  induction 1 as [|b bs Hb _ IH]; intros i Hi.
  - destruct i; simpl in *; lia.
  - destruct i as [|i]; [simpl; lia|].
    cbn [take]. rewrite AssemblerFacts.mjoin_cons, length_app, Hb, IH.
    + lia.
    + simpl in Hi. lia.
Qed.

Lemma dirs_uniform infos off :
  Forall (fun b => List.length b = 16%nat)
         (zip_with dirBytes infos (offsetsFrom off infos)).
Proof.
  revert off. induction infos as [|info infos IH]; intros off.
  - constructor.
  - cbn [offsetsFrom zip_with]. constructor; [reflexivity | apply IH].
Qed.

Lemma length_offsetsFrom infos off :
  List.length (offsetsFrom off infos) = List.length infos.
Proof.
  revert off. induction infos as [|info infos IH]; intros off;
    [reflexivity|].
  cbn [offsetsFrom]. rewrite !length_cons, IH. reflexivity.
Qed.

Lemma dirs_lookup infos off0 (i : nat) info off :
  infos !! i = Some info ->
  offsetsFrom off0 infos !! i = Some off ->
  zip_with dirBytes infos (offsetsFrom off0 infos) !! i
  = Some (dirBytes info off).
Proof.
  intros Hi Ho. rewrite lookup_zip_with, Hi. cbn. rewrite Ho. reflexivity.
Qed.

(** The first offset, and the step from one offset to the next. *)
Lemma offsetsFrom_first infos off0 off :
  offsetsFrom off0 infos !! 0%nat = Some off -> off = off0.
Proof. destruct infos; cbn; congruence. Qed.

Lemma offsetsFrom_next infos :
  forall off0 (i : nat) info off off',
    infos !! i = Some info ->
    offsetsFrom off0 infos !! i = Some off ->
    offsetsFrom off0 infos !! S i = Some off' ->
    off' = off + 40 + payloadLen info.
Proof.
  induction infos as [|info0 infos IH]; intros off0 i info off off' Hi Ho Ho'.
  - discriminate.
  - destruct i as [|i].
    + cbn in Hi, Ho. inversion Hi; inversion Ho; subst.
      change (offsetsFrom (off + 40 + payloadLen info) infos !! 0%nat
              = Some off') in Ho'.
      apply offsetsFrom_first in Ho'. exact Ho'.
    + exact (IH _ i info off off' Hi Ho Ho').
Qed.

(** An offset is the start plus the lengths of the blocks before it. *)
Lemma offsetsFrom_prefix rendered :
  Forall rendered_ok rendered ->
  forall off0 (i : nat) off,
    offsetsFrom off0 (snd <$> rendered) !! i = Some off ->
    Z.of_nat (List.length
                (mjoin (take i ((fun di => hdrBytes di.2 ++ dibOf di)
                                  <$> rendered))))
    = off - off0.
Proof.
  induction 1 as [|di rendered Hok _ IH]; intros off0 i off Ho.
  - discriminate.
  - rewrite fmap_cons in Ho. cbn [offsetsFrom] in Ho.
    destruct i as [|i].
    + cbn in Ho. inversion Ho; subst. cbn. lia.
    + rewrite fmap_cons. cbn [take].
      rewrite AssemblerFacts.mjoin_cons, !length_app, !Nat2Z.inj_add.
      change (offsetsFrom (off0 + 40 + payloadLen di.2) (snd <$> rendered) !! i
              = Some off) in Ho.
      rewrite (IH _ _ _ Ho).
      destruct (AssemblerFacts.getDib_dibOf di Hok) as [_ Hlen].
      unfold Buf.length in Hlen. rewrite Hlen.
      change (Z.of_nat (List.length (hdrBytes di.2))) with 40. lia.
Qed.

Lemma offsetsFrom_ge rendered :
  Forall rendered_ok rendered ->
  forall off0 (i : nat) off,
    offsetsFrom off0 (snd <$> rendered) !! i = Some off -> off0 <= off.
Proof.
  intros Hok off0 i off Ho.
  pose proof (offsetsFrom_prefix rendered Hok off0 i off Ho). lia.
Qed.

(** Where a directory entry and an image sit in a container laid out as
    header, directory entries, then one block per image. *)
Lemma container_dir_entry header B infos off0 (i : nat) info off :
  List.length header = 6%nat ->
  infos !! i = Some info ->
  offsetsFrom off0 infos !! i = Some off ->
  slice (header ++ mjoin (zip_with dirBytes infos (offsetsFrom off0 infos)) ++ B)
        (6 + 16 * Z.of_nat i) 16
  = dirBytes info off.
Proof.
  intros Hh Hi Ho. unfold slice.
  set (dirs := zip_with dirBytes infos (offsetsFrom off0 infos)).
  assert (Hd : dirs !! i = Some (dirBytes info off))
    by (apply dirs_lookup; assumption).
  assert (Hlt : (i < List.length dirs)%nat)
    by (apply lookup_lt_is_Some; eauto).
  pose proof (length_join_take_uniform 16 dirs (dirs_uniform infos off0) i
                ltac:(lia)) as Hpre.
  replace (Z.to_nat (6 + 16 * Z.of_nat i)) with (6 + 16 * i)%nat by lia.
  rewrite (drop_app_add' header _ 6 (16 * i)) by (symmetry; exact Hh).
  rewrite drop_app_le.
  - rewrite <- Hpre, (join_block dirs i _ Hd), <- app_assoc.
    apply take_app_length'. reflexivity.
  - rewrite <- (take_drop_middle dirs i _ Hd), join_app, length_app.
    rewrite Hpre. lia.
Qed.

Lemma dirBytes_offset info off : slice (dirBytes info off) 12 4 = le32 off.
Proof. reflexivity. Qed.

Lemma slice_slice (l : list Z) (s n s' n' : Z) :
  0 <= s -> 0 <= s' -> 0 <= n' -> s' + n' <= n ->
  slice (slice l s n) s' n' = slice l (s + s') n'.
Proof.
  intros Hs Hs' Hn' Hle. unfold slice.
  rewrite skipn_firstn_comm, take_take, drop_drop.
  f_equal; [lia | f_equal; lia].
Qed.

Lemma container_image header rendered off0 (i : nat) di off :
  List.length header = 6%nat ->
  Forall rendered_ok rendered ->
  off0 = 6 + 16 * Z.of_nat (List.length rendered) ->
  rendered !! i = Some di ->
  offsetsFrom off0 (snd <$> rendered) !! i = Some off ->
  slice (header
         ++ mjoin (zip_with dirBytes (snd <$> rendered)
                     (offsetsFrom off0 (snd <$> rendered)))
         ++ mjoin ((fun di => hdrBytes di.2 ++ dibOf di) <$> rendered))
        off (40 + payloadLen di.2)
  = hdrBytes di.2 ++ dibOf di.
Proof.
  intros Hh Hok Hoff0 Hi Ho. unfold slice.
  set (dirs := zip_with dirBytes (snd <$> rendered)
                 (offsetsFrom off0 (snd <$> rendered))).
  set (blocks := (fun di => hdrBytes di.2 ++ dibOf di) <$> rendered).
  assert (Hb : blocks !! i = Some (hdrBytes di.2 ++ dibOf di)).
  { unfold blocks. rewrite list_lookup_fmap, Hi. reflexivity. }
  pose proof (offsetsFrom_prefix rendered Hok off0 i off Ho) as Hpre.
  fold blocks in Hpre.
  pose proof (AssemblerFacts.length_dirs (snd <$> rendered) off0) as Hld.
  unfold Buf.length in Hld. fold dirs in Hld. rewrite length_fmap in Hld.
  replace (Z.to_nat off)
    with (6 + (List.length (mjoin dirs)
               + List.length (mjoin (take i blocks))))%nat by lia.
  rewrite (drop_app_add' header _ 6) by (symmetry; exact Hh).
  rewrite drop_app_add, (join_block blocks i _ Hb).
  apply take_app_length'.
  rewrite length_app.
  pose proof (Forall_lookup_1 _ _ _ _ Hok Hi) as Hdi.
  destruct (AssemblerFacts.getDib_dibOf di Hdi) as [_ Hlen].
  unfold Buf.length in Hlen.
  pose proof (AssemblerFacts.payloadLen_nonneg di Hdi).
  change (List.length (hdrBytes di.2)) with 40%nat. lia.
Qed.

End OffsetFacts.

(** ** The claims about the assembler and the conversion *)

(** C5. In [imagesToIco] the file offset written into the directory entry
    of the first image is [6 + 16 * N] for [N] images, and the offset of
    every later image is the offset of the image before it plus 40 plus the
    full payload length (colour map and mask) of that image.  So the
    offsets increase strictly, the spans [off, off + 40 + payloadLength) of
    consecutive images do not overlap, and the header and payload of each
    image are found at its offset in the container. *)
Theorem imagesToIco_offsets (toBuffer : Sharp -> result (list Z * OutputInfo))
    (images : list Sharp) (rendered : list (list Z * OutputInfo)) :
  Forall2 (fun img di => toBuffer (raw img) = Ok di) images rendered ->
  Forall rendered_ok rendered ->
  Z.of_nat (List.length images) < 2 ^ 16 ->
  6 + 16 * Z.of_nat (List.length images) + bodiesLen (snd <$> rendered)
  < 2 ^ 32 ->
  let N := Z.of_nat (List.length images) in
  let offs := offsetsFrom (6 + 16 * N) (snd <$> rendered) in
  exists out,
    (imagesToIco toBuffer images).2 = Ok out
    /\ List.length offs = List.length images
    /\ forall (i : nat) di off,
         rendered !! i = Some di -> offs !! i = Some off ->
         exists dir hdr dib,
           getDir di.2 off = Ok dir
           /\ getBmpInfoHeader di.2 = Ok hdr
           /\ getDib di.1 di.2 = Ok dib
           /\ Buf.length dib
              = size di.2 + getRowStride (width di.2) * width di.2
           /\ slice out (6 + 16 * Z.of_nat i) 16 = dir
           /\ slice out (6 + 16 * Z.of_nat i + 12) 4 = le32 off
           /\ slice out off (40 + Buf.length dib) = hdr ++ dib
           /\ (i = 0%nat -> off = 6 + 16 * N)
           /\ (forall off', offs !! S i = Some off' ->
                 off' = off + 40 + Buf.length dib
                 /\ off < off'
                 /\ off + 40 + Buf.length dib <= off').
Proof.
  intros Hbuf Hok HN Hmax N offs.
  pose proof (Forall2_length _ _ _ Hbuf) as Hlen.
  rewrite (AssemblerFacts.imagesToIco_run toBuffer images rendered
             Hbuf Hok HN Hmax).
  cbn [snd]. fold N. fold offs.
  eexists. split; [reflexivity|].
  split.
  { unfold offs. rewrite OffsetFacts.length_offsetsFrom, length_fmap. lia. }
  intros i di off Hi Ho.
  pose proof (Forall_lookup_1 _ _ _ _ Hok Hi) as Hdi.
  destruct (AssemblerFacts.getDib_dibOf di Hdi) as [Hdib Hdiblen].
  pose proof (AssemblerFacts.payloadLen_nonneg di Hdi) as Hpl.
  pose proof (AssemblerFacts.bodiesLen_nonneg rendered Hok) as Hbl.
  pose proof Hdi as (_ & _ & Hs & _ & _ & HW).
  assert (Hinfo : (snd <$> rendered) !! i = Some di.2)
    by (rewrite list_lookup_fmap, Hi; reflexivity).
  pose proof (OffsetFacts.offsetsFrom_prefix rendered Hok _ i off Ho) as Hpre.
  (* the blocks before image [i], and image [i] itself, fit in the total *)
  assert (Hfit : off + 40 + payloadLen di.2
                 <= 6 + 16 * N + bodiesLen (snd <$> rendered)).
  { pose proof (AssemblerFacts.length_bodies rendered Hok) as Hall.
    unfold Buf.length in Hall.
    set (blocks := (fun di => hdrBytes di.2 ++ dibOf di) <$> rendered) in *.
    assert (Hb : blocks !! i = Some (hdrBytes di.2 ++ dibOf di)).
    { unfold blocks. rewrite list_lookup_fmap, Hi. reflexivity. }
    rewrite <- (take_drop_middle blocks i _ Hb) in Hall.
    rewrite join_app, AssemblerFacts.mjoin_cons, !length_app in Hall.
    unfold Buf.length in Hdiblen.
    change (List.length (hdrBytes di.2)) with 40%nat in Hall. lia. }
  assert (Hsz : 0 <= size di.2 + 40 < 2 ^ 32).
  { unfold payloadLen in *. pose proof (Geometry.stride_nonneg _ HW). nia. }
  assert (Hh : width di.2 * 2 < 2 ^ 31).
  { change (2 ^ 32) with 4294967296 in *. change (2 ^ 31) with 2147483648.
    nia. }
  exists (dirBytes di.2 off), (hdrBytes di.2), (dibOf di).
  split; [apply getDir_bytes; [exact HW | exact Hsz | lia]|].
  split; [apply getBmpInfoHeader_bytes; assumption|].
  split; [exact Hdib|]. split; [exact Hdiblen|].
  assert (Hentry :
    slice ((le16 0 ++ le16 1 ++ le16 N)
           ++ mjoin (zip_with dirBytes (snd <$> rendered) offs)
           ++ mjoin ((fun di => hdrBytes di.2 ++ dibOf di) <$> rendered))
          (6 + 16 * Z.of_nat i) 16
    = dirBytes di.2 off).
  { apply OffsetFacts.container_dir_entry; [reflexivity | exact Hinfo | exact Ho]. }
  split; [exact Hentry|].
  split.
  { rewrite <- (OffsetFacts.dirBytes_offset di.2 off), <- Hentry.
    rewrite OffsetFacts.slice_slice by lia. reflexivity. }
  split.
  { rewrite Hdiblen.
    apply (OffsetFacts.container_image _ rendered _ i di off);
      [reflexivity | exact Hok | unfold N; lia | exact Hi | exact Ho]. }
  split.
  { intros ->. exact (OffsetFacts.offsetsFrom_first _ _ _ Ho). }
  intros off' Ho'.
  pose proof (OffsetFacts.offsetsFrom_next _ _ _ _ _ _ Hinfo Ho Ho') as Hnext.
  rewrite Hdiblen. fold (payloadLen di.2). lia.
Qed.

Lemma solidImage_ok w : 0 <= w -> rendered_ok (solidImage w).
Proof.
  intros Hw. unfold rendered_ok, square_rgba8, solidImage. cbn [fst snd width height size].
  repeat split; try lia.
  - unfold Buf.length. rewrite length_replicate. nia.
  - apply Forall_replicate. unfold Buf.is_byte. lia.
Qed.

Lemma solid_sizes_ok :
  Forall rendered_ok [solidImage 48; solidImage 32; solidImage 16; solidImage 256].
Proof.
  repeat (apply List.Forall_cons; [apply solidImage_ok; lia|]).
  apply List.Forall_nil.
Qed.

(** C5 on a 256x256 source rendered by [solid]: the first directory entry
    points at byte 70, the second one 40 + 9216 + 384 bytes further. *)
Lemma imagesToIco_offsets_solid :
  exists out,
    (imagesToIco (solid 256)
       (imageList (mkOutputInfo "png" 262144 256 256) (sharp "icon.png"))).2
    = Ok out
    /\ slice out (6 + 12) 4 = le32 70
    /\ slice out (6 + 16 + 12) 4 = le32 (70 + 40 + (9216 + 384)).
Proof.
  destruct (imagesToIco_offsets (solid 256)
              (imageList (mkOutputInfo "png" 262144 256 256) (sharp "icon.png"))
              [solidImage 48; solidImage 32; solidImage 16; solidImage 256])
    as (out & Hrun & _ & Hall).
  - repeat constructor.
  - apply solid_sizes_ok.
  - reflexivity.
  - reflexivity.
  - exists out. split; [exact Hrun|].
    destruct (Hall 0%nat (solidImage 48) 70 eq_refl eq_refl)
      as (dir0 & hdr0 & dib0 & _ & _ & _ & _ & _ & H0 & _).
    destruct (Hall 1%nat (solidImage 32) (70 + 40 + (9216 + 384))
                eq_refl eq_refl)
      as (dir1 & hdr1 & dib1 & _ & _ & _ & _ & _ & H1 & _).
    split; [exact H0 | exact H1].
Defined.

(** The container of a valid conversion, part by part. *)
Lemma toIco_container (toBuffer : Sharp -> result (list Z * OutputInfo))
    (image : Sharp) (d : list Z) (info : OutputInfo)
    (r48 r32 r16 r256 : list Z * OutputInfo) :
  toBuffer image = Ok (d, info) ->
  format info = "png"%string ->
  width info = height info ->
  let canon := if width info =? 256 then image
               else resize image 256 256 cubic in
  let i48 := resize (clone canon) 48 48 cubic in
  let i32 := resize (clone canon) 32 32 cubic in
  let i16 := resize (clone canon) 16 16 cubic in
  Forall2 (fun img di => toBuffer (raw img) = Ok di)
          [i48; i32; i16; canon] [r48; r32; r16; r256] ->
  Forall rendered_ok [r48; r32; r16; r256] ->
  6 + 16 * 4 + bodiesLen [r48.2; r32.2; r16.2; r256.2] < 2 ^ 32 ->
  let o48 := 6 + 16 * 4 in
  let o32 := o48 + 40 + payloadLen r48.2 in
  let o16 := o32 + 40 + payloadLen r32.2 in
  let o256 := o16 + 40 + payloadLen r16.2 in
  toIco toBuffer image
  = ([image; raw i48; raw i32; raw i16; raw canon],
     Ok ((le16 0 ++ le16 1 ++ le16 4)
         ++ (dirBytes r48.2 o48 ++ dirBytes r32.2 o32
             ++ dirBytes r16.2 o16 ++ dirBytes r256.2 o256)
         ++ (hdrBytes r48.2 ++ dibOf r48) ++ (hdrBytes r32.2 ++ dibOf r32)
         ++ (hdrBytes r16.2 ++ dibOf r16) ++ (hdrBytes r256.2 ++ dibOf r256)))
    /\ getDir r48.2 o48 = Ok (dirBytes r48.2 o48)
    /\ getBmpInfoHeader r48.2 = Ok (hdrBytes r48.2)
    /\ getDib r48.1 r48.2 = Ok (dibOf r48)
    /\ getDib r32.1 r32.2 = Ok (dibOf r32)
    /\ getDib r16.1 r16.2 = Ok (dibOf r16)
    /\ getDib r256.1 r256.2 = Ok (dibOf r256).
Proof.
  intros Hsrc Hf Hw canon i48 i32 i16 Hbuf Hok Hmax o48 o32 o16 o256.
  pose proof Hok as Hall.
  apply Forall_cons in Hall as [H48 Hall].
  apply Forall_cons in Hall as [H32 Hall].
  apply Forall_cons in Hall as [H16 Hall].
  apply Forall_cons in Hall as [H256 _].
  split.
  - rewrite (ToIcoFacts.toIco_valid toBuffer image d info Hsrc Hf Hw).
    change (imageList info image) with [i48; i32; i16; canon].
    rewrite (AssemblerFacts.imagesToIco_run toBuffer _ _ Hbuf Hok);
      [| reflexivity | exact Hmax].
    cbn [fst snd fmap list_fmap offsetsFrom zip_with List.length].
    rewrite !AssemblerFacts.mjoin_cons.
    change (mjoin (@nil (list Z))) with (@nil Z).
    rewrite !app_nil_r, <- !app_assoc. reflexivity.
  - pose proof H48 as (_ & _ & Hs & _ & _ & HW).
    pose proof (AssemblerFacts.payloadLen_nonneg _ H48) as Hpl.
    assert (Hrest : 0 <= bodiesLen [r32.2; r16.2; r256.2]).
    { apply (AssemblerFacts.bodiesLen_nonneg [r32; r16; r256]).
      exact (Forall_inv_tail Hok). }
    cbn [bodiesLen] in Hmax, Hrest.
    assert (Hsz : 0 <= size r48.2 + 40 < 2 ^ 32).
    { unfold payloadLen in *. pose proof (Geometry.stride_nonneg _ HW). nia. }
    assert (Hh : width r48.2 * 2 < 2 ^ 31).
    { change (2 ^ 32) with 4294967296 in *. change (2 ^ 31) with 2147483648.
      nia. }
    split; [apply getDir_bytes; [exact HW | exact Hsz | unfold o48; lia]|].
    split; [apply getBmpInfoHeader_bytes; assumption|].
    repeat split; apply AssemblerFacts.getDib_dibOf; assumption.
Qed.

(** C6. For a valid square source the images are encoded in the order
    48, 32, 16, canonical, where the canonical image is the source itself
    when it is 256 wide and its cubic 256x256 resample otherwise, and each
    of the three small images is a cubic resample of a clone of the
    canonical one.  The library is asked for the raw pixels in that order,
    and the directory entries and the (header, payload) pairs of the
    container follow the same order. *)
Theorem toIco_image_order (toBuffer : Sharp -> result (list Z * OutputInfo))
    (image : Sharp) (d : list Z) (info : OutputInfo)
    (r48 r32 r16 r256 : list Z * OutputInfo) :
  toBuffer image = Ok (d, info) ->
  format info = "png"%string ->
  width info = height info ->
  let canon := if width info =? 256 then image
               else resize image 256 256 cubic in
  let i48 := resize (clone canon) 48 48 cubic in
  let i32 := resize (clone canon) 32 32 cubic in
  let i16 := resize (clone canon) 16 16 cubic in
  Forall2 (fun img di => toBuffer (raw img) = Ok di)
          [i48; i32; i16; canon] [r48; r32; r16; r256] ->
  Forall rendered_ok [r48; r32; r16; r256] ->
  6 + 16 * 4 + bodiesLen [r48.2; r32.2; r16.2; r256.2] < 2 ^ 32 ->
  let o48 := 6 + 16 * 4 in
  let o32 := o48 + 40 + payloadLen r48.2 in
  let o16 := o32 + 40 + payloadLen r32.2 in
  let o256 := o16 + 40 + payloadLen r16.2 in
  toIco toBuffer image
  = ([image; raw i48; raw i32; raw i16; raw canon],
     Ok ((le16 0 ++ le16 1 ++ le16 4)
         ++ (dirBytes r48.2 o48 ++ dirBytes r32.2 o32
             ++ dirBytes r16.2 o16 ++ dirBytes r256.2 o256)
         ++ (hdrBytes r48.2 ++ dibOf r48) ++ (hdrBytes r32.2 ++ dibOf r32)
         ++ (hdrBytes r16.2 ++ dibOf r16) ++ (hdrBytes r256.2 ++ dibOf r256)))
    /\ getDir r48.2 o48 = Ok (dirBytes r48.2 o48)
    /\ getBmpInfoHeader r48.2 = Ok (hdrBytes r48.2)
    /\ getDib r48.1 r48.2 = Ok (dibOf r48)
    /\ getDib r32.1 r32.2 = Ok (dibOf r32)
    /\ getDib r16.1 r16.2 = Ok (dibOf r16)
    /\ getDib r256.1 r256.2 = Ok (dibOf r256).
Proof.
  intros Hsrc Hf Hw canon i48 i32 i16 Hbuf Hok Hmax.
  exact (toIco_container toBuffer image d info r48 r32 r16 r256
           Hsrc Hf Hw Hbuf Hok Hmax).
Qed.

(** C6 on a 100x100 source rendered by [solid]: the canonical image is the
    cubic 256x256 resample, and the raw pixels are requested in the order
    48, 32, 16, 256. *)
Lemma toIco_image_order_solid :
  (toIco (solid 100) (sharp "icon.png")).1
  = [sharp "icon.png";
     raw (resize (clone (resize (sharp "icon.png") 256 256 cubic)) 48 48 cubic);
     raw (resize (clone (resize (sharp "icon.png") 256 256 cubic)) 32 32 cubic);
     raw (resize (clone (resize (sharp "icon.png") 256 256 cubic)) 16 16 cubic);
     raw (resize (sharp "icon.png") 256 256 cubic)].
Proof.
  destruct (toIco_image_order (solid 100) (sharp "icon.png")
              (replicate (Z.to_nat (100 * 100 * 4)) 255)
              (mkOutputInfo "png" (100 * 100 * 4) 100 100)
              (solidImage 48) (solidImage 32) (solidImage 16) (solidImage 256))
    as (Hrun & _).
  - reflexivity.
  - reflexivity.
  - reflexivity.
  - repeat constructor.
  - apply solid_sizes_ok.
  - reflexivity.
  - rewrite Hrun. reflexivity.
Defined.

(** The three parts the loop builds for one image. *)
Lemma encode_parts (di : list Z * OutputInfo) (off : Z) :
  rendered_ok di ->
  0 <= off ->
  off + 40 + payloadLen di.2 < 2 ^ 32 ->
  getDir di.2 off = Ok (dirBytes di.2 off)
  /\ getBmpInfoHeader di.2 = Ok (hdrBytes di.2)
  /\ getDib di.1 di.2 = Ok (dibOf di)
  /\ Buf.length (dibOf di) = width di.2 * width di.2 * 4
                             + getRowStride (width di.2) * width di.2
  /\ payloadLen di.2 = width di.2 * width di.2 * 4
                       + getRowStride (width di.2) * width di.2.
Proof.
  intros Hdi Hoff Hmax.
  destruct (AssemblerFacts.getDib_dibOf di Hdi) as [Hdib Hlen].
  pose proof (AssemblerFacts.payloadLen_nonneg di Hdi) as Hpl.
  pose proof Hdi as (_ & _ & Hs & _ & _ & HW).
  pose proof (Geometry.stride_nonneg _ HW) as Hst.
  assert (Hpay : payloadLen di.2 = width di.2 * width di.2 * 4
                                   + getRowStride (width di.2) * width di.2)
    by (unfold payloadLen; rewrite Hs; reflexivity).
  assert (Hsz : 0 <= size di.2 + 40 < 2 ^ 32) by (rewrite Hs; nia).
  assert (Hh : width di.2 * 2 < 2 ^ 31).
  { change (2 ^ 32) with 4294967296 in *. change (2 ^ 31) with 2147483648.
    nia. }
  split; [apply getDir_bytes; [exact HW | exact Hsz | lia]|].
  split; [apply getBmpInfoHeader_bytes; assumption|].
  split; [exact Hdib|]. split; [lia | exact Hpay].
Qed.

(** C3. For a valid square source converted end to end (four images), the
    container is exactly [6 + 16 * 4] bytes plus, for each image of width
    [W], [40 + rawSize + maskSize] bytes, where [rawSize = W * W * 4] and
    [maskSize = rowStride(W) * W].  Each [getDib] output is
    [rawSize + maskSize] bytes long.  The container is the concatenation of
    the parts the encoder built (the header, the four directory entries,
    then a bitmap header and a payload per image), nothing cut off and
    nothing zero-filled: the length handed to the final concatenation is the
    length of what is concatenated. *)
Theorem toIco_total_length (toBuffer : Sharp -> result (list Z * OutputInfo))
    (image : Sharp) (d : list Z) (info : OutputInfo)
    (r48 r32 r16 r256 : list Z * OutputInfo) :
  toBuffer image = Ok (d, info) ->
  format info = "png"%string ->
  width info = height info ->
  Forall2 (fun img di => toBuffer (raw img) = Ok di)
          (imageList info image) [r48; r32; r16; r256] ->
  Forall rendered_ok [r48; r32; r16; r256] ->
  6 + 16 * 4 + bodiesLen [r48.2; r32.2; r16.2; r256.2] < 2 ^ 32 ->
  let rawSize (di : list Z * OutputInfo) := width di.2 * width di.2 * 4 in
  let maskSize (di : list Z * OutputInfo) :=
    getRowStride (width di.2) * width di.2 in
  exists out dib48 dib32 dib16 dib256,
    (toIco toBuffer image).2 = Ok out
    /\ getDib r48.1 r48.2 = Ok dib48
    /\ getDib r32.1 r32.2 = Ok dib32
    /\ getDib r16.1 r16.2 = Ok dib16
    /\ getDib r256.1 r256.2 = Ok dib256
    /\ Buf.length dib48 = rawSize r48 + maskSize r48
    /\ Buf.length dib32 = rawSize r32 + maskSize r32
    /\ Buf.length dib16 = rawSize r16 + maskSize r16
    /\ Buf.length dib256 = rawSize r256 + maskSize r256
    /\ Buf.length out
       = 6 + 16 * 4
         + ((40 + rawSize r48 + maskSize r48)
            + (40 + rawSize r32 + maskSize r32)
            + (40 + rawSize r16 + maskSize r16)
            + (40 + rawSize r256 + maskSize r256))
    /\ Buf.length out
       = 6 + (16 + 16 + 16 + 16)
         + (40 + Buf.length dib48) + (40 + Buf.length dib32)
         + (40 + Buf.length dib16) + (40 + Buf.length dib256)
    /\ exists header dir48 dir32 dir16 dir256 hdr48 hdr32 hdr16 hdr256,
         getHeader 4 = Ok header
         /\ getDir r48.2 (6 + 16 * 4) = Ok dir48
         /\ getDir r32.2 (6 + 16 * 4 + (40 + Buf.length dib48)) = Ok dir32
         /\ getDir r16.2 (6 + 16 * 4 + (40 + Buf.length dib48)
                          + (40 + Buf.length dib32)) = Ok dir16
         /\ getDir r256.2 (6 + 16 * 4 + (40 + Buf.length dib48)
                           + (40 + Buf.length dib32)
                           + (40 + Buf.length dib16)) = Ok dir256
         /\ getBmpInfoHeader r48.2 = Ok hdr48
         /\ getBmpInfoHeader r32.2 = Ok hdr32
         /\ getBmpInfoHeader r16.2 = Ok hdr16
         /\ getBmpInfoHeader r256.2 = Ok hdr256
         /\ out = header ++ dir48 ++ dir32 ++ dir16 ++ dir256
                  ++ hdr48 ++ dib48 ++ hdr32 ++ dib32
                  ++ hdr16 ++ dib16 ++ hdr256 ++ dib256
         /\ Buf.length out
            = Buf.length header
              + (Buf.length dir48 + Buf.length hdr48 + Buf.length dib48)
              + (Buf.length dir32 + Buf.length hdr32 + Buf.length dib32)
              + (Buf.length dir16 + Buf.length hdr16 + Buf.length dib16)
              + (Buf.length dir256 + Buf.length hdr256 + Buf.length dib256).
Proof.
  intros Hsrc Hf Hw Hbuf Hok Hmax rawSize maskSize.
  destruct (toIco_container toBuffer image d info r48 r32 r16 r256
              Hsrc Hf Hw Hbuf Hok Hmax)
    as (Hrun & _ & _ & _ & _ & _ & _).
  pose proof Hok as Hall.
  apply Forall_cons in Hall as [Hok48 Hall].
  apply Forall_cons in Hall as [Hok32 Hall].
  apply Forall_cons in Hall as [Hok16 Hall].
  apply Forall_cons in Hall as [Hok256 _].
  pose proof (AssemblerFacts.payloadLen_nonneg _ Hok48) as P48.
  pose proof (AssemblerFacts.payloadLen_nonneg _ Hok32) as P32.
  pose proof (AssemblerFacts.payloadLen_nonneg _ Hok16) as P16.
  pose proof (AssemblerFacts.payloadLen_nonneg _ Hok256) as P256.
  cbn [bodiesLen] in Hmax.
  destruct (encode_parts r48 (6 + 16 * 4) Hok48 ltac:(lia) ltac:(lia))
    as (D48 & B48 & H48 & L48 & E48).
  destruct (encode_parts r32 (6 + 16 * 4 + 40 + payloadLen r48.2)
              Hok32 ltac:(lia) ltac:(lia))
    as (D32 & B32 & H32 & L32 & E32).
  destruct (encode_parts r16
              (6 + 16 * 4 + 40 + payloadLen r48.2 + 40 + payloadLen r32.2)
              Hok16 ltac:(lia) ltac:(lia))
    as (D16 & B16 & H16 & L16 & E16).
  destruct (encode_parts r256
              (6 + 16 * 4 + 40 + payloadLen r48.2 + 40 + payloadLen r32.2
               + 40 + payloadLen r16.2)
              Hok256 ltac:(lia) ltac:(lia))
    as (D256 & B256 & H256 & L256 & E256).
  rewrite Hrun. cbn [snd].
  eexists. exists (dibOf r48), (dibOf r32), (dibOf r16), (dibOf r256).
  split; [reflexivity|].
  do 4 (split; [assumption|]).
  do 4 (split; [assumption|]).
  assert (Hout :
    Buf.length
      ((le16 0 ++ le16 1 ++ le16 4)
       ++ (dirBytes r48.2 (6 + 16 * 4)
           ++ dirBytes r32.2 (6 + 16 * 4 + 40 + payloadLen r48.2)
           ++ dirBytes r16.2
                (6 + 16 * 4 + 40 + payloadLen r48.2 + 40 + payloadLen r32.2)
           ++ dirBytes r256.2
                (6 + 16 * 4 + 40 + payloadLen r48.2 + 40 + payloadLen r32.2
                 + 40 + payloadLen r16.2))
       ++ (hdrBytes r48.2 ++ dibOf r48) ++ (hdrBytes r32.2 ++ dibOf r32)
       ++ (hdrBytes r16.2 ++ dibOf r16) ++ hdrBytes r256.2 ++ dibOf r256)
    = 6 + (16 + 16 + 16 + 16)
      + (40 + Buf.length (dibOf r48)) + (40 + Buf.length (dibOf r32))
      + (40 + Buf.length (dibOf r16)) + (40 + Buf.length (dibOf r256))).
  { unfold Buf.length. rewrite !length_app, !Nat2Z.inj_add.
    change (Z.of_nat (List.length (le16 0))) with 2.
    change (Z.of_nat (List.length (le16 1))) with 2.
    change (Z.of_nat (List.length (le16 4))) with 2.
    change (Z.of_nat (List.length (hdrBytes r48.2))) with 40.
    change (Z.of_nat (List.length (hdrBytes r32.2))) with 40.
    change (Z.of_nat (List.length (hdrBytes r16.2))) with 40.
    change (Z.of_nat (List.length (hdrBytes r256.2))) with 40.
    repeat match goal with
           | |- context [Z.of_nat (List.length (dirBytes ?i ?o))] =>
               change (Z.of_nat (List.length (dirBytes i o))) with 16
           end.
    lia. }
  split; [rewrite Hout; unfold rawSize, maskSize; lia|].
  split; [exact Hout|].
  exists (le16 0 ++ le16 1 ++ le16 4),
    (dirBytes r48.2 (6 + 16 * 4)),
    (dirBytes r32.2 (6 + 16 * 4 + 40 + payloadLen r48.2)),
    (dirBytes r16.2
       (6 + 16 * 4 + 40 + payloadLen r48.2 + 40 + payloadLen r32.2)),
    (dirBytes r256.2
       (6 + 16 * 4 + 40 + payloadLen r48.2 + 40 + payloadLen r32.2
        + 40 + payloadLen r16.2)),
    (hdrBytes r48.2), (hdrBytes r32.2), (hdrBytes r16.2), (hdrBytes r256.2).
  split; [apply getHeader_bytes; lia|].
  split; [exact D48|].
  split.
  { rewrite <- D32. f_equal. lia. }
  split.
  { rewrite <- D16. f_equal. lia. }
  split.
  { rewrite <- D256. f_equal. lia. }
  do 4 (split; [assumption|]).
  split.
  { rewrite <- !app_assoc. reflexivity. }
  rewrite Hout.
  change (Buf.length (le16 0 ++ le16 1 ++ le16 4)) with 6.
  change (Buf.length (hdrBytes r48.2)) with 40.
  change (Buf.length (hdrBytes r32.2)) with 40.
  change (Buf.length (hdrBytes r16.2)) with 40.
  change (Buf.length (hdrBytes r256.2)) with 40.
  repeat match goal with
         | |- context [Buf.length (dirBytes ?i ?o)] =>
             change (Buf.length (dirBytes i o)) with 16
         end.
  lia.
Qed.

(** C3 on a 256x256 source rendered by [solid]: the container is
    6 + 64 + (40 + 9216 + 384) + (40 + 4096 + 128) + (40 + 1024 + 64)
    + (40 + 262144 + 8192) bytes long and starts with the header the
    encoder built for four images. *)
Lemma toIco_total_length_solid :
  exists out rest,
    (toIco (solid 256) (sharp "icon.png")).2 = Ok out
    /\ Buf.length out = 285478
    /\ out = [0; 0; 1; 0; 4; 0] ++ rest.
Proof.
  destruct (toIco_total_length (solid 256) (sharp "icon.png")
              (replicate (Z.to_nat (256 * 256 * 4)) 255)
              (mkOutputInfo "png" (256 * 256 * 4) 256 256)
              (solidImage 48) (solidImage 32) (solidImage 16) (solidImage 256))
    as (out & dib48 & dib32 & dib16 & dib256 & Hrun & _ & _ & _ & _
        & _ & _ & _ & _ & Hlen & _
        & header & dir48 & dir32 & dir16 & dir256
        & hdr48 & hdr32 & hdr16 & hdr256 & Hheader & _ & _ & _ & _
        & _ & _ & _ & _ & Hout & _).
  - reflexivity.
  - reflexivity.
  - reflexivity.
  - repeat constructor.
  - apply solid_sizes_ok.
  - reflexivity.
  - eexists out, _. split; [exact Hrun|]. split; [exact Hlen|].
    rewrite Hout. vm_compute in Hheader. inversion Hheader. reflexivity.
Defined.

(** C7. A source whose format is not png, or whose width differs from its
    height, makes [toIco] throw the one fixed error [err]; the library has
    been asked for the source only, no raw pixels were extracted and no
    container exists. *)
Theorem toIco_invalid_input (toBuffer : Sharp -> result (list Z * OutputInfo))
    (image : Sharp) (d : list Z) (info : OutputInfo) :
  toBuffer image = Ok (d, info) ->
  format info <> "png"%string \/ width info <> height info ->
  toIco toBuffer image = ([image], Throw err)
  /\ err = JsError "Please give me a square PNG image.".
Proof.
  intros Hsrc Hbad. split; [|reflexivity].
  exact (ToIcoFacts.toIco_invalid toBuffer image d info Hsrc Hbad).
Qed.

(** C7 on a source 10 wide and 20 high. *)
Lemma toIco_invalid_input_tall :
  toIco tall (sharp "banner.png") = ([sharp "banner.png"], Throw err)
  /\ err = JsError "Please give me a square PNG image.".
Proof.
  apply (toIco_invalid_input tall (sharp "banner.png") (replicate 800 255)
           (mkOutputInfo "png" 800 10 20)).
  - reflexivity.
  - right. simpl. lia.
Defined.

(** * Further properties of the encoder *)

(** ** When the fixed-size records throw *)

Module ThrowFacts.

Lemma checkInt_throw value min max buf offset k :
  max < value \/ value < min ->
  Buf.checkInt value min max buf offset k = Throw ERR_OUT_OF_RANGE.
Proof.
  intros H. unfold Buf.checkInt.
  destruct (Z.ltb_spec max value), (Z.ltb_spec value min);
    try reflexivity; lia.
Qed.

Lemma writeU_Int8_throw buf value offset min max :
  max < value \/ value < min ->
  Buf.writeU_Int8 buf value offset min max = Throw ERR_OUT_OF_RANGE.
Proof.
  intros H. unfold Buf.writeU_Int8. rewrite checkInt_throw by exact H.
  reflexivity.
Qed.

Lemma writeU_Int16LE_throw buf value offset min max :
  max < value \/ value < min ->
  Buf.writeU_Int16LE buf value offset min max = Throw ERR_OUT_OF_RANGE.
Proof.
  intros H. unfold Buf.writeU_Int16LE. rewrite checkInt_throw by exact H.
  reflexivity.
Qed.

Lemma writeU_Int32LE_throw buf value offset min max :
  max < value \/ value < min ->
  Buf.writeU_Int32LE buf value offset min max = Throw ERR_OUT_OF_RANGE.
Proof.
  intros H. unfold Buf.writeU_Int32LE. rewrite checkInt_throw by exact H.
  reflexivity.
Qed.

(** A 32-bit store past the end of the buffer throws. *)
Lemma writeU_Int32LE_past_end buf value offset min max :
  Buf.length buf <= offset + 3 ->
  Buf.writeU_Int32LE buf value offset min max = Throw ERR_OUT_OF_RANGE.
Proof.
  intros H. unfold Buf.writeU_Int32LE, Buf.checkInt, Buf.checkBounds.
  rewrite (BufFacts.get_None_ge buf (offset + 3)) by lia.
  destruct (_ || _); [reflexivity|].
  destruct (Buf.get buf offset); reflexivity.
Qed.

End ThrowFacts.

(** Runs the checked writes that succeed, then the one that throws. *)
Ltac run_to_throw :=
  unfold Buf.writeUInt8, Buf.writeUInt16LE, Buf.writeUInt32LE,
    Buf.writeInt32LE;
  repeat (first [ rewrite RecordFacts.writeU_Int8_set by in_bounds
                | rewrite RecordFacts.writeU_Int16LE_set by in_bounds
                | rewrite RecordFacts.writeU_Int32LE_set by in_bounds ];
          cbn [mbind result_bind]);
  first [ rewrite ThrowFacts.writeU_Int8_throw by lia
        | rewrite ThrowFacts.writeU_Int16LE_throw by lia
        | rewrite ThrowFacts.writeU_Int32LE_throw by lia ];
  reflexivity.

(** X1. [getHeader] returns the six bytes reserved 0, type 1 and the image
    count, each 16-bit little-endian, exactly when the count fits 16 bits;
    for any other count it throws a range error. *)
Theorem getHeader_fits (numOfImages : Z) :
  getHeader numOfImages
  = if (0 <=? numOfImages) && (numOfImages <=? 65535)
    then Ok [0; 0; 1; 0; numOfImages mod 256; numOfImages / 256]
    else Throw ERR_OUT_OF_RANGE.
Proof.
  destruct (Z.leb_spec 0 numOfImages) as [H0|H0];
    [destruct (Z.leb_spec numOfImages 65535) as [H1|H1]|]; cbn [andb].
  - rewrite getHeader_bytes by (change (2 ^ 16) with 65536; lia).
    assert (E : (numOfImages / 2 ^ 8) mod 256 = numOfImages / 256).
    { change (2 ^ 8) with 256. apply Z.mod_small.
      Z.div_mod_to_equations. lia. }
    rewrite !RecordFacts.le16_bytes, E. reflexivity.
  - unfold getHeader. rewrite DibFacts.alloc_ok by lia.
    cbn [mbind result_bind].
    change (replicate (Z.to_nat 6) 0) with (replicate 6%nat 0).
    cbn [replicate]. run_to_throw.
  - unfold getHeader. rewrite DibFacts.alloc_ok by lia.
    cbn [mbind result_bind].
    change (replicate (Z.to_nat 6) 0) with (replicate 6%nat 0).
    cbn [replicate]. run_to_throw.
Qed.

(** X2. [getDir] returns its 16 bytes exactly when the width is not
    negative and the data size [info.size + 40] and the file offset each fit
    an unsigned 32-bit field; otherwise it throws a range error. *)
Theorem getDir_fits (info : OutputInfo) (offset : Z) :
  getDir info offset
  = if (0 <=? width info)
       && (0 <=? size info + 40) && (size info + 40 <=? 4294967295)
       && (0 <=? offset) && (offset <=? 4294967295)
    then Ok (dirBytes info offset)
    else Throw ERR_OUT_OF_RANGE.
Proof.
  destruct (Z.leb_spec 0 (width info)) as [Hw|Hw]; cbn [andb].
  2:{ unfold getDir. rewrite DibFacts.alloc_ok by lia.
      cbn [mbind result_bind].
      change (replicate (Z.to_nat 16) 0) with (replicate 16%nat 0).
      cbn [replicate].
      destruct (Z.leb_spec 256 (width info)); [lia|]. run_to_throw. }
  set (wb := if 256 <=? width info then 0 else width info).
  assert (Hwb : 0 <= wb <= 255).
  { unfold wb. destruct (Z.leb_spec 256 (width info)); lia. }
  destruct (Z.leb_spec 0 (size info + 40)) as [Hs0|Hs0];
    [destruct (Z.leb_spec (size info + 40) 4294967295) as [Hs1|Hs1];
     [destruct (Z.leb_spec 0 offset) as [Ho0|Ho0];
      [destruct (Z.leb_spec offset 4294967295) as [Ho1|Ho1]|]|]|];
    cbn [andb].
  - apply getDir_bytes; change (2 ^ 32) with 4294967296; lia.
  - unfold getDir. fold wb. clearbody wb.
    rewrite DibFacts.alloc_ok by lia. cbn [mbind result_bind].
    change (replicate (Z.to_nat 16) 0) with (replicate 16%nat 0).
    cbn [replicate]. run_to_throw.
  - unfold getDir. fold wb. clearbody wb.
    rewrite DibFacts.alloc_ok by lia. cbn [mbind result_bind].
    change (replicate (Z.to_nat 16) 0) with (replicate 16%nat 0).
    cbn [replicate]. run_to_throw.
  - unfold getDir. fold wb. clearbody wb.
    rewrite DibFacts.alloc_ok by lia. cbn [mbind result_bind].
    change (replicate (Z.to_nat 16) 0) with (replicate 16%nat 0).
    cbn [replicate]. run_to_throw.
  - unfold getDir. fold wb. clearbody wb.
    rewrite DibFacts.alloc_ok by lia. cbn [mbind result_bind].
    change (replicate (Z.to_nat 16) 0) with (replicate 16%nat 0).
    cbn [replicate]. run_to_throw.
Qed.

Module SignedFacts.

(** The bytes of a two's-complement store are the bytes of the value. *)
Lemma ToUint32_byte v k :
  k = 0 \/ k = 8 \/ k = 16 \/ k = 24 ->
  (Js.ToUint32 v / 2 ^ k) mod 256 = (v / 2 ^ k) mod 256.
Proof.
  unfold Js.ToUint32. change (2 ^ 32) with 4294967296.
  intros [-> | [-> | [-> | ->]]].
  - change (2 ^ 0) with 1. rewrite !Z.div_1_r.
    apply Z.mod_mod_divide. exists 16777216. reflexivity.
  - change (2 ^ 8) with 256. Z.div_mod_to_equations. lia.
  - change (2 ^ 16) with 65536. Z.div_mod_to_equations. lia.
  - change (2 ^ 24) with 16777216. Z.div_mod_to_equations. lia.
Qed.

Lemma ToUint32_bytes v :
  [Js.ToUint32 v mod 256; (Js.ToUint32 v / 2 ^ 8) mod 256;
   (Js.ToUint32 v / 2 ^ 16) mod 256; (Js.ToUint32 v / 2 ^ 24) mod 256]
  = le32 v.
Proof.
  rewrite RecordFacts.le32_bytes.
  pose proof (ToUint32_byte v 0 ltac:(auto)) as H0.
  change (2 ^ 0) with 1 in H0. rewrite !Z.div_1_r in H0.
  rewrite H0, !ToUint32_byte by auto. reflexivity.
Qed.

End SignedFacts.

(** X3. [getBmpInfoHeader] returns its 40 bytes exactly when the width and
    its double both fit a signed 32-bit field, that is for
    [-2^30 <= width < 2^30]; otherwise it throws a range error. *)
Theorem getBmpInfoHeader_fits (info : OutputInfo) :
  getBmpInfoHeader info
  = if (-1073741824 <=? width info) && (width info <=? 1073741823)
    then Ok (hdrBytes info)
    else Throw ERR_OUT_OF_RANGE.
Proof.
  unfold getBmpInfoHeader.
  rewrite DibFacts.alloc_ok by lia. cbn [mbind result_bind].
  change (replicate (Z.to_nat 40) 0) with (replicate 40%nat 0).
  cbn [replicate].
  destruct (Z.leb_spec (-1073741824) (width info)) as [Hlo|Hlo];
    [destruct (Z.leb_spec (width info) 1073741823) as [Hhi|Hhi]|];
    cbn [andb].
  - unfold Buf.writeUInt8, Buf.writeUInt16LE, Buf.writeUInt32LE,
      Buf.writeInt32LE.
    repeat (first [ rewrite RecordFacts.writeU_Int16LE_set by in_bounds
                  | rewrite RecordFacts.writeU_Int32LE_set by in_bounds ];
            cbn [mbind result_bind]).
    rewrite !(JsFacts.ToUint32_small 0), (JsFacts.ToUint32_small 40),
      (JsFacts.ToUint32_small 1), (JsFacts.ToUint32_small 32) by lia.
    unfold hdrBytes.
    rewrite <- (SignedFacts.ToUint32_bytes (width info)).
    rewrite <- (SignedFacts.ToUint32_bytes (width info * 2)).
    rewrite !RecordFacts.le16_bytes, !RecordFacts.le32_bytes.
    unfold Buf.set.
    with_strategy opaque [Z.modulo Z.div Z.pow Js.ToUint32] simpl.
    reflexivity.
  - destruct (Z.le_gt_cases (width info) 2147483647); run_to_throw.
  - destruct (Z.le_gt_cases (-2147483648) (width info)); run_to_throw.
Qed.

(** ** Reading the fields back *)

(** X4. The fields of a directory entry decode to the values [getDir] was
    given: planes 1, bit count 32, data size [info.size + 40] and the file
    offset, read little-endian from bytes 4-5, 6-7, 8-11 and 12-15. *)
Theorem getDir_decodes (info : OutputInfo) (off : Z) :
  0 <= width info ->
  0 <= size info + 40 < 2 ^ 32 ->
  0 <= off < 2 ^ 32 ->
  exists dir,
    getDir info off = Ok dir
    /\ little_endian_to_Z 8 (slice dir 4 2) = 1
    /\ little_endian_to_Z 8 (slice dir 6 2) = 32
    /\ little_endian_to_Z 8 (slice dir 8 4) = size info + 40
    /\ little_endian_to_Z 8 (slice dir 12 4) = off.
Proof.
  intros Hw Hs Ho. eexists. split; [apply getDir_bytes; assumption|].
  fold (dirBytes info off).
  change (slice (dirBytes info off) 4 2) with (le16 1).
  change (slice (dirBytes info off) 6 2) with (le16 32).
  change (slice (dirBytes info off) 8 4) with (le32 (size info + 40)).
  change (slice (dirBytes info off) 12 4) with (le32 off).
  unfold le16, le32.
  rewrite !little_endian_to_Z_to_little_endian by lia.
  change (2 ^ (4 * 8)) with (2 ^ 32).
  repeat split; try reflexivity; apply Z.mod_small; assumption.
Qed.

Lemma getDir_decodes_48 :
  exists dir,
    getDir (mkOutputInfo "raw" 9216 48 48) 70 = Ok dir
    /\ little_endian_to_Z 8 (slice dir 8 4) = 9256
    /\ little_endian_to_Z 8 (slice dir 12 4) = 70.
Proof.
  destruct (getDir_decodes (mkOutputInfo "raw" 9216 48 48) 70)
    as (dir & Hrun & _ & _ & Hsize & Hoff);
    [simpl; lia | simpl; lia | lia |].
  exists dir. auto.
Defined.

(** X5. The fields of a bitmap info header decode to header size 40, the
    width, twice the width as the height, planes 1 and bit count 32, for
    every width from 0 up to [2^30 - 1]. *)
Theorem getBmpInfoHeader_decodes (info : OutputInfo) :
  0 <= width info < 2 ^ 30 ->
  exists hdr,
    getBmpInfoHeader info = Ok hdr
    /\ little_endian_to_Z 8 (slice hdr 0 4) = 40
    /\ little_endian_to_Z 8 (slice hdr 4 4) = width info
    /\ little_endian_to_Z 8 (slice hdr 8 4) = 2 * width info
    /\ little_endian_to_Z 8 (slice hdr 12 2) = 1
    /\ little_endian_to_Z 8 (slice hdr 14 2) = 32.
Proof.
  intros Hw. change (2 ^ 30) with 1073741824 in Hw.
  eexists. split.
  { apply getBmpInfoHeader_bytes; [lia|]. change (2 ^ 31) with 2147483648. lia. }
  fold (hdrBytes info).
  change (slice (hdrBytes info) 0 4) with (le32 40).
  change (slice (hdrBytes info) 4 4) with (le32 (width info)).
  change (slice (hdrBytes info) 8 4) with (le32 (width info * 2)).
  change (slice (hdrBytes info) 12 2) with (le16 1).
  change (slice (hdrBytes info) 14 2) with (le16 32).
  unfold le16, le32.
  rewrite !little_endian_to_Z_to_little_endian by lia.
  change (2 ^ (4 * 8)) with 4294967296.
  repeat split; try reflexivity.
  - apply Z.mod_small. lia.
  - rewrite Z.mod_small by lia. lia.
Qed.

Lemma getBmpInfoHeader_decodes_256 :
  exists hdr,
    getBmpInfoHeader (mkOutputInfo "raw" 262144 256 256) = Ok hdr
    /\ little_endian_to_Z 8 (slice hdr 4 4) = 256
    /\ little_endian_to_Z 8 (slice hdr 8 4) = 512.
Proof.
  destruct (getBmpInfoHeader_decodes (mkOutputInfo "raw" 262144 256 256))
    as (hdr & Hrun & _ & Hwidth & Hheight & _); [simpl; lia|].
  exists hdr. auto.
Defined.

(** ** The row stride *)

(** The stride is [W] bits rounded up to whole 32-bit words. *)
Lemma getRowStride_padding_aux (W : Z) :
  0 <= W ->
  getRowStride W mod 4 = 0
  /\ W <= 8 * getRowStride W
  /\ 8 * getRowStride W < W + 32.
Proof.
  intros HW. unfold getRowStride.
  destruct (Z.eqb_spec (Z.rem W 32) 0) as [H|H];
    rewrite Z.rem_mod_nonneg in H by lia.
  - Z.div_mod_to_equations. lia.
  - rewrite Z.mul_comm, Z.mod_mul by lia.
    Z.div_mod_to_equations. lia.
Qed.


(** X6. The mask row stride is the least whole number of 32-bit words that
    holds one bit per pixel of a row: a multiple of 4 bytes, at least [W]
    bits, and less than [W + 32] bits. *)
Theorem getRowStride_padding (W : Z) :
  0 <= W ->
  getRowStride W mod 4 = 0
  /\ W <= 8 * getRowStride W
  /\ 8 * getRowStride W < W + 32.
Proof. exact (getRowStride_padding_aux W). Qed.

Lemma getRowStride_padding_48 :
  getRowStride 48 mod 4 = 0
  /\ 48 <= 8 * getRowStride 48
  /\ 8 * getRowStride 48 < 48 + 32.
Proof. apply (getRowStride_padding 48). lia. Defined.

(** ** The whole transparency mask *)

Module MaskFacts.


Lemma alphaBit_eqb data W x y :
  (alphaBit data W x y =? 1) = negb (Js.gt0 (a (getColorPixel data x y W))).
Proof. unfold alphaBit. destruct (Js.gt0 _); reflexivity. Qed.


End MaskFacts.

(** The mask of a square raster, bit for bit. *)
Lemma getDib_mask_bits_aux (data : list Z) (info : OutputInfo) (W : Z) :
  square_rgba8 data info W ->
  exists out,
    getDib data info = Ok out
    /\ forall l c, 0 <= l < W -> 0 <= c < getRowStride W ->
         exists v,
           Buf.get out (W * W * 4 + l * getRowStride W + c) = Some v
           /\ 0 <= v < 256
           /\ forall n, 0 <= n < 8 ->
                Z.testbit v n
                = (8 * c + 7 - n <? W)
                  && negb (Js.gt0 (a (getColorPixel data (8 * c + 7 - n)
                                        (W - 1 - l) W))).
Proof.
  intros Hsq.
  destruct (DibFacts.getDib_run data info W Hsq)
    as (buf0 & cbuf & out & _ & _ & _ & Hrun & HA).
  destruct HA as (HL & Hwf & _ & Hbits).
  exists out. split; [exact Hrun|].
  intros l c Hl Hc.
  destruct (Hbits l c 0 Hl Hc ltac:(lia)) as (v & Hv & _).
  exists v. split; [exact Hv|].
  split; [exact (BufFacts.get_wf _ _ _ Hwf Hv)|].
  intros n Hn.
  destruct (Hbits l c n Hl Hc Hn) as (v' & Hv' & Hbit).
  rewrite Hv in Hv'. inversion Hv'; subst v'.
  rewrite Hbit. unfold maskBit. rewrite MaskFacts.alphaBit_eqb.
  assert (Hb : beforeb (8 * c + 7 - n) (W - 1 - l) 0 W = true)
    by (unfold beforeb; lia).
  rewrite Hb. apply andb_true_r.
Qed.


(** X7. On a square RGBA8 raster the mask that [getDib] returns is known
    bit for bit: bit [n] of byte [c] of mask row [l] is set exactly when
    column [8 * c + 7 - n] lies inside the image and the alpha byte of the
    pixel in that column of image row [W - 1 - l], the raster byte at
    [((W - 1 - l) * W + 8 * c + 7 - n) * 4 + 3], is 0.  So the padding bits
    of every row are 0, and each mask value is a byte. *)
Theorem getDib_mask_bits (data : list Z) (info : OutputInfo) (W : Z) :
  square_rgba8 data info W ->
  exists out,
    getDib data info = Ok out
    /\ forall l c, 0 <= l < W -> 0 <= c < getRowStride W ->
         exists v,
           Buf.get out (W * W * 4 + l * getRowStride W + c) = Some v
           /\ 0 <= v < 256
           /\ forall n, 0 <= n < 8 ->
                (Z.testbit v n = true
                 <-> 8 * c + 7 - n < W
                     /\ Buf.get data
                          (((W - 1 - l) * W + (8 * c + 7 - n)) * 4 + 3)
                        = Some 0).
Proof.
  intros Hsq.
  destruct (getDib_mask_bits_aux data info W Hsq) as (out & Hrun & Hall).
  destruct Hsq as (_ & _ & _ & Hlen & Hwf & HW).
  exists out. split; [exact Hrun|].
  intros l c Hl Hc.
  destruct (Hall l c Hl Hc) as (v & Hv & Hrange & Hbits).
  exists v. split; [exact Hv|]. split; [exact Hrange|].
  intros n Hn. rewrite (Hbits n Hn).
  (* the alpha the encoder reads is that byte of the raster *)
  change (a (getColorPixel data (8 * c + 7 - n) (W - 1 - l) W))
    with (Buf.get data (((W - 1 - l) * W + (8 * c + 7 - n)) * 4 + 3)).
  destruct (Z.ltb_spec (8 * c + 7 - n) W) as [Hin|Hout]; cbn [andb].
  - destruct (Buf.get data (((W - 1 - l) * W + (8 * c + 7 - n)) * 4 + 3))
      as [alpha|] eqn:E; cbn [Js.gt0 negb].
    + pose proof (BufFacts.get_wf _ _ _ Hwf E) as Hbyte.
      destruct (Z.ltb_spec 0 alpha); cbn [negb]; split.
      * discriminate.
      * intros [_ H0]. inversion H0. lia.
      * intros _. split; [exact Hin|]. f_equal. lia.
      * reflexivity.
    + split; [intros _ | intros [_ H0]; discriminate].
      exfalso.
      assert (Hsome : is_Some (Buf.get data
                (((W - 1 - l) * W + (8 * c + 7 - n)) * 4 + 3))).
      { apply BufFacts.get_is_Some. rewrite Hlen. nia. }
      rewrite E in Hsome. destruct Hsome as [? ?]. discriminate.
  - split; [discriminate | intros [Hlt _]; lia].
Qed.

(** X7 on a 2x2 image whose only transparent pixel is in column 1 of row
    0: in the second mask row bit 6 is set and bit 7 is clear, and bit 6 of
    the first mask row, which belongs to column 1 of row 1, is clear. *)
Lemma getDib_mask_bits_2x2 :
  exists out v w,
    getDib corner2x2 demo2x2_info = Ok out
    /\ Buf.get out (2 * 2 * 4 + 1 * getRowStride 2 + 0) = Some v
    /\ Z.testbit v 6 = true
    /\ Z.testbit v 7 <> true
    /\ Buf.get out (2 * 2 * 4 + 0 * getRowStride 2 + 0) = Some w
    /\ Z.testbit w 6 <> true.
Proof.
  destruct (getDib_mask_bits corner2x2 demo2x2_info 2) as (out & Hrun & Hall).
  - unfold square_rgba8, Buf.wf, Buf.is_byte. simpl.
    repeat split; try reflexivity; try lia.
    repeat constructor; lia.
  - destruct (Hall 1 0 ltac:(lia) ltac:(vm_compute; split; congruence))
      as (v & Hv & _ & Hbits).
    destruct (Hall 0 0 ltac:(lia) ltac:(vm_compute; split; congruence))
      as (w & Hw & _ & Hbits').
    exists out, v, w. split; [exact Hrun|]. split; [exact Hv|].
    split; [|split; [|split; [exact Hw|]]].
    + apply (Hbits 6 ltac:(lia)). split; [lia | reflexivity].
    + intros H. apply (Hbits 7 ltac:(lia)) in H as [_ H]. discriminate.
    + intros H. apply (Hbits' 6 ltac:(lia)) in H as [_ H]. discriminate.
Defined.



(** ** Rasters shorter or longer than four bytes per pixel *)

Module AnyFacts.
Section Any.

Variables (data : list Z) (W : Z).
Hypothesis HW : 0 <= W.
Hypothesis Hwf : Buf.wf data.

Lemma channel_range i : 0 <= Js.ToNumeric32 (Buf.get data i) < 256.
Proof.
  destruct (Buf.get data i) as [v|] eqn:E; cbn; [|lia].
  exact (BufFacts.get_wf _ _ _ Hwf E).
Qed.

Lemma xorStep_any x y buf :
  0 <= x < W -> 0 <= y < W ->
  XInvAny data W y x buf ->
  exists buf', xorStep data W W x y buf = Ok buf' /\ XInvAny data W y (x + 1) buf'.
Proof.
  intros Hx Hy (HL & Hbw & Hdone & Hmask).
  pose proof (Geometry.xorPos_range W x y Hx Hy) as Hpos.
  pose proof (Geometry.stride_nonneg W HW) as Hst.
  unfold xorStep.
  replace (((W - y - 1) * W + x) * 4) with (xorPos W x y)
    by (unfold xorPos; lia).
  set (px := getColorPixel data x y W).
  assert (Hr : 0 <= Js.ToNumeric32 (r px) < 256) by apply channel_range.
  assert (Hg : 0 <= Js.ToNumeric32 (g px) < 256) by apply channel_range.
  assert (Hb : 0 <= Js.ToNumeric32 (b px) < 256) by apply channel_range.
  assert (Ha : 0 <= Js.ToNumeric32 (a px) < 256) by apply channel_range.
  set (vr := Js.ToNumeric32 (r px)) in *.
  set (vg := Js.ToNumeric32 (g px)) in *.
  set (vb := Js.ToNumeric32 (b px)) in *.
  set (va := Js.ToNumeric32 (a px)) in *.
  set (v := Js.or (Js.or (Js.or vb (Js.shl vg 8)) (Js.shl vr 16)) (Js.shl va 24)).
  destruct (BufFacts.writeU_Int32LE_spec buf v (xorPos W x y) _ _
              (JsFacts.or_range _ _))
    as (buf' & Hw & HL' & G0 & G1 & G2 & G3 & Hframe & Hwf');
    [lia | nia |].
  assert (HU : Js.ToUint32 v = packed vr vg vb va)
    by (apply JsFacts.newColor_bits; assumption).
  rewrite HU in G0, G1, G2, G3.
  destruct (JsFacts.packed_bytes vr vg vb va Hr Hg Hb Ha) as (B0 & B1 & B2 & B3).
  rewrite B0 in G0. rewrite B1 in G1. rewrite B2 in G2. rewrite B3 in G3.
  exists buf'. split; [exact Hw|].
  split; [lia|]. split; [auto|]. split.
  - intros x' y' Hx' Hy' Hbef.
    destruct (XorFacts.before_next _ _ _ _ Hbef) as [Hold | [-> ->]].
    + assert (Hne : (x', y') <> (x, y)).
      { intros E. inversion E; subst. unfold before in Hold. lia. }
      pose proof (Geometry.xorPos_apart W x y x' y' Hx Hy Hx' Hy' Hne).
      destruct (Hdone x' y' Hx' Hy' Hold) as (O0 & O1 & O2 & O3).
      unfold xorDoneAny. rewrite !Hframe by lia. auto.
    + unfold xorDoneAny. fold px. auto.
  - intros i Hi. rewrite Hframe by lia. apply Hmask, Hi.
Qed.

Lemma XInvAny_next_row y buf :
  XInvAny data W y W buf -> XInvAny data W (y + 1) 0 buf.
Proof.
  intros (HL & Hbw & Hdone & Hmask).
  split; [exact HL|]. split; [exact Hbw|]. split; [|exact Hmask].
  intros x' y' Hx' Hy' Hbef. apply Hdone; auto. unfold before in *. lia.
Qed.

Lemma xorLoop_any buf :
  Buf.length buf = W * W * 4 + getRowStride W * W ->
  Buf.wf buf ->
  (forall i, W * W * 4 <= i < W * W * 4 + getRowStride W * W ->
             Buf.get buf i = Some 0) ->
  exists buf',
    Js.for_lt W (fun y => Js.for_lt W (fun x => xorStep data W W x y)) buf
    = Ok buf'
    /\ XInvAny data W W 0 buf'.
Proof.
  intros HL Hbw Hz.
  apply (LoopFacts.for_lt_inv (fun y => XInvAny data W y 0)); [exact HW | |].
  - split; [exact HL|]. split; [exact Hbw|]. split; [|exact Hz].
    intros x' y' Hx' Hy' Hbef. unfold before in Hbef. lia.
  - intros y t Hy Ht.
    destruct (LoopFacts.for_lt_inv (fun x => XInvAny data W y x)
                (fun x => xorStep data W W x y) W t HW Ht) as (t' & Hrun & Ht').
    + intros x u Hxr Hu. apply xorStep_any; assumption.
    + exists t'. split; [exact Hrun | apply XInvAny_next_row, Ht'].
Qed.

End Any.
End AnyFacts.

(** X9. [getDib] does not depend on the raster holding four bytes per
    pixel: whenever [info.size = W * W * 4] and the output,
    [W * W * 4 + rowStride(W) * W] bytes, is smaller than 2^30 bytes (which
    every platform's [buffer.constants.MAX_LENGTH] allows [Buffer.alloc] to
    create), for a buffer of any length it returns that many bytes.  The
    pixel at column [x] of row [y] is encoded from bytes
    [(y * W + x) * 4 .. + 3] of the buffer, with 0 for a byte the buffer
    does not hold.  A pixel that lies wholly past the end of the buffer
    becomes four zero bytes with its mask bit set. *)
Theorem getDib_any_length (data : list Z) (info : OutputInfo) (W x y : Z) :
  Buf.wf data ->
  width info = W ->
  size info = W * W * 4 ->
  W * W * 4 + getRowStride W * W < 2 ^ 30 ->
  0 <= x < W -> 0 <= y < W ->
  let from := (y * W + x) * 4 in
  let at_ := ((W - 1 - y) * W + x) * 4 in
  exists out v,
    getDib data info = Ok out
    /\ Buf.length out = W * W * 4 + getRowStride W * W
    /\ Buf.get out at_ = Some (Js.ToNumeric32 (Buf.get data (from + 2)))
    /\ Buf.get out (at_ + 1) = Some (Js.ToNumeric32 (Buf.get data (from + 1)))
    /\ Buf.get out (at_ + 2) = Some (Js.ToNumeric32 (Buf.get data from))
    /\ Buf.get out (at_ + 3) = Some (Js.ToNumeric32 (Buf.get data (from + 3)))
    /\ Buf.get out (W * W * 4 + (W - 1 - y) * getRowStride W + x / 8) = Some v
    /\ Z.testbit v (7 - x mod 8) = negb (Js.gt0 (Buf.get data (from + 3)))
    /\ (Buf.length data <= from ->
        Buf.get out at_ = Some 0 /\ Buf.get out (at_ + 1) = Some 0
        /\ Buf.get out (at_ + 2) = Some 0 /\ Buf.get out (at_ + 3) = Some 0
        /\ Z.testbit v (7 - x mod 8) = true).
Proof.
  intros Hwf Hw Hs _ Hx Hy from at_.
  set (px := getColorPixel data x y W).
  assert (HW : 0 <= W) by lia.
  pose proof (Geometry.stride_nonneg W HW) as Hst.
  pose proof (Geometry.stride_covers W HW) as Hcov.
  set (L := W * W * 4 + getRowStride W * W).
  assert (HL : 0 <= L) by (unfold L; nia).
  set (buf0 := replicate (Z.to_nat L) 0).
  assert (Hlen0 : Buf.length buf0 = L).
  { unfold Buf.length, buf0. rewrite length_replicate. lia. }
  destruct (AnyFacts.xorLoop_any data W HW Hwf buf0 Hlen0)
    as (cbuf & Hxor & HX).
  { apply BufFacts.wf_replicate. }
  { intros i Hi. apply BufFacts.get_replicate. fold L in Hi. lia. }
  destruct HX as (HLc & Hwfc & Hdone & Hzero).
  destruct (AndFacts.andLoop_inv data W HW cbuf HLc Hwfc Hzero)
    as (out & Hand & HA).
  destruct HA as (HLo & _ & Hcol & Hbits).
  assert (Hrun : getDib data info = Ok out).
  { unfold getDib. rewrite Hw, Hs. fold L.
    rewrite (DibFacts.alloc_ok L HL). cbn [mbind result_bind].
    fold buf0. rewrite Hxor. cbn [mbind result_bind].
    rewrite Hand. reflexivity. }
  destruct (Hdone x y Hx Hy ltac:(unfold before; lia)) as (G0 & G1 & G2 & G3).
  fold px in G0, G1, G2, G3.
  pose proof (Geometry.xorPos_range W x y Hx Hy) as Hpos.
  unfold xorPos in G0, G1, G2, G3, Hpos. fold at_ in G0, G1, G2, G3, Hpos.
  destruct (Hbits (W - 1 - y) (x / 8) (7 - x mod 8)) as (v & Hv & Hvbit).
  { lia. }
  { Z.div_mod_to_equations. lia. }
  { Z.div_mod_to_equations. lia. }
  unfold maskBit in Hvbit.
  replace (8 * (x / 8) + 7 - (7 - x mod 8)) with x in Hvbit
    by (Z.div_mod_to_equations; lia).
  replace (W - 1 - (W - 1 - y)) with y in Hvbit by lia.
  rewrite MaskFacts.alphaBit_eqb in Hvbit. fold px in Hvbit.
  assert (Hb : beforeb x y 0 W = true) by (unfold beforeb; lia).
  rewrite Hb, andb_true_r in Hvbit.
  destruct (Z.ltb_spec x W); [|lia]. cbn [andb] in Hvbit.
  assert (Hr : r px = Buf.get data from)
    by (unfold px, getColorPixel, from; cbn [r]; rewrite Z.add_0_r;
        reflexivity).
  assert (Hg : g px = Buf.get data (from + 1)) by reflexivity.
  assert (Hb' : b px = Buf.get data (from + 2)) by reflexivity.
  assert (Ha : a px = Buf.get data (from + 3)) by reflexivity.
  rewrite Hb' in G0. rewrite Hg in G1. rewrite Hr in G2. rewrite Ha in G3, Hvbit.
  exists out, v. split; [exact Hrun|]. split; [exact HLo|].
  rewrite !Hcol by lia.
  do 4 (split; [assumption|]). split; [exact Hv|]. split; [exact Hvbit|].
  intros Hshort.
  assert (Hnone : forall k, 0 <= k -> Buf.get data (from + k) = None)
    by (intros k Hk; apply BufFacts.get_None_ge; lia).
  replace (Buf.get data from) with (Buf.get data (from + 0)) in G2
    by (f_equal; lia).
  rewrite !Hnone in G0, G1, G2, G3, Hvbit by lia.
  cbn in G0, G1, G2, G3, Hvbit.
  auto 10.
Qed.

(** X9 on a 2x2 image whose buffer holds the first pixel and half of the
    second: pixel (1, 0) keeps the two channels the buffer holds, pixel
    (0, 1) lies past the end; both come out transparent. *)
Lemma getDib_any_length_short :
  (exists out v,
     getDib [10; 20; 30; 255; 40; 50] demo2x2_info = Ok out
     /\ Buf.length out = 24
     /\ Buf.get out 12 = Some 0 /\ Buf.get out 13 = Some 50
     /\ Buf.get out 14 = Some 40 /\ Buf.get out 15 = Some 0
     /\ Buf.get out (16 + 4) = Some v /\ Z.testbit v 6 = true)
  /\ (exists out v,
        getDib [10; 20; 30; 255; 40; 50] demo2x2_info = Ok out
        /\ Buf.get out 0 = Some 0 /\ Buf.get out 1 = Some 0
        /\ Buf.get out 2 = Some 0 /\ Buf.get out 3 = Some 0
        /\ Buf.get out 16 = Some v /\ Z.testbit v 7 = true).
Proof.
  split.
  - destruct (getDib_any_length [10; 20; 30; 255; 40; 50] demo2x2_info 2 1 0)
      as (out & v & Hrun & Hlen & G0 & G1 & G2 & G3 & Hv & Hbit & _).
    + unfold Buf.wf, Buf.is_byte. repeat constructor; lia.
    + reflexivity.
    + reflexivity.
    + reflexivity.
    + lia.
    + lia.
    + exists out, v. auto 10.
  - destruct (getDib_any_length [10; 20; 30; 255; 40; 50] demo2x2_info 2 0 1)
      as (out & v & Hrun & _ & _ & _ & _ & _ & Hv & _ & Hshort).
    + unfold Buf.wf, Buf.is_byte. repeat constructor; lia.
    + reflexivity.
    + reflexivity.
    + reflexivity.
    + lia.
    + lia.
    + destruct Hshort as (Z0 & Z1 & Z2 & Z3 & Hbit); [vm_compute; congruence|].
      exists out, v. auto 10.
Defined.

(** The first colour word does not fit the allocation. *)
Lemma getDib_first_write_throws (data : list Z) (info : OutputInfo) :
  1 <= width info ->
  size info + getRowStride (width info) * width info
  < (width info - 1) * width info * 4 + 4 ->
  getDib data info = Throw ERR_OUT_OF_RANGE.
Proof.
  intros HW Hsmall. unfold getDib, Buf.alloc.
  destruct (Z.ltb_spec (size info + getRowStride (width info) * width info) 0)
    as [Hneg|Hpos]; [reflexivity|].
  cbn [mbind result_bind].
  set (L := size info + getRowStride (width info) * width info) in *.
  set (buf0 := replicate (Z.to_nat L) 0).
  assert (Hlen0 : Buf.length buf0 = L).
  { unfold Buf.length, buf0. rewrite length_replicate. lia. }
  assert (Hstep : xorStep data (width info) (width info) 0 0 buf0
                  = Throw ERR_OUT_OF_RANGE).
  { unfold xorStep, Buf.writeInt32LE.
    apply ThrowFacts.writeU_Int32LE_past_end. rewrite Hlen0. lia. }
  unfold Js.for_lt.
  destruct (Z.to_nat (width info)) as [|k] eqn:Hk; [lia|].
  cbn [Js.for_from]. rewrite Hstep. reflexivity.
Qed.


(** X10. When the allocation [info.size + rowStride(W) * W] is too small
    to hold the first colour word, which goes to the start of the last
    row, [getDib] throws a range error and returns nothing. *)
Theorem getDib_too_small (data : list Z) (info : OutputInfo) :
  1 <= width info ->
  size info + getRowStride (width info) * width info
  < (width info - 1) * width info * 4 + 4 ->
  getDib data info = Throw ERR_OUT_OF_RANGE.
Proof. exact (getDib_first_write_throws data info). Qed.

(** X10 on a 10x10 raster with three bytes per pixel. *)
Lemma getDib_too_small_rgb :
  getDib (replicate 300 255) (mkOutputInfo "raw" 300 10 10)
  = Throw ERR_OUT_OF_RANGE.
Proof.
  apply getDib_too_small.
  - simpl. lia.
  - vm_compute. reflexivity.
Defined.

(** ** Failures of the library *)

Module FailFacts.
Section WithLibrary.

Variable toBuffer : Sharp -> result (list Z * OutputInfo).

Lemma body_rejected st img e :
  toBuffer (raw img) = Throw e ->
  imagesToIco_body toBuffer st img = ([raw img], Throw e).
Proof.
  intros H. unfold imagesToIco_body, await_toBuffer, mbind, Async_bind.
  rewrite H. reflexivity.
Qed.

(** A rejected extraction ends the loop with the library's error. *)
Lemma for_of_throws images :
  forall st s e,
    s ∈ (for_of toBuffer images st).1 ->
    toBuffer s = Throw e ->
    (for_of toBuffer images st).2 = Throw e
    /\ last (for_of toBuffer images st).1 = Some s.
Proof.
  induction images as [|img images IH]; intros st s e Hin Hs.
  - cbn in Hin. inversion Hin.
  - cbn [for_of] in *.
    destruct (toBuffer (raw img)) as [di|e0] eqn:Himg.
    + pose proof (ToIcoFacts.body_calls toBuffer st img) as Hcalls.
      unfold mbind, Async_bind in *.
      destruct (imagesToIco_body toBuffer st img) as [calls [st'|e1]];
        cbn [fst] in Hcalls; subst calls.
      * destruct (for_of toBuffer images st') as [calls' res'] eqn:Hrest.
        cbn [fst snd] in *.
        apply elem_of_cons in Hin as [-> | Hin]; [congruence|].
        destruct (IH st' s e) as [Hres Hlast]; rewrite ?Hrest; cbn [fst snd];
          try assumption.
        rewrite Hrest in Hres, Hlast. cbn [fst snd] in Hres, Hlast.
        split; [exact Hres|].
        destruct calls' as [|c calls']; [inversion Hin|].
        exact Hlast.
      * cbn [fst snd] in *.
        apply elem_of_cons in Hin as [-> | Hin]; [congruence | inversion Hin].
    + rewrite (body_rejected st img e0 Himg) in *.
      unfold mbind, Async_bind in *. cbn [fst snd] in *.
      apply elem_of_cons in Hin as [-> | Hin]; [|inversion Hin].
      split; [congruence | reflexivity].
Qed.

Lemma imagesToIco_throws images s e :
  s ∈ (imagesToIco toBuffer images).1 ->
  toBuffer s = Throw e ->
  (imagesToIco toBuffer images).2 = Throw e
  /\ last (imagesToIco toBuffer images).1 = Some s.
Proof.
  unfold imagesToIco, sync, mbind, Async_bind.
  destruct (getHeader (Z.of_nat (List.length images))) as [header|e0].
  - intros Hin Hs.
    match goal with
    | H : context [for_of toBuffer images ?st0] |- _ =>
        pose proof (for_of_throws images st0 s e) as Hloop;
        destruct (for_of toBuffer images st0) as [calls [st|e1]]
    end; cbn [fst snd app] in *.
    + unfold mret, Async_ret in *. cbn [fst snd] in *.
      rewrite app_nil_r in *. destruct (Hloop Hin Hs) as [Hres _].
      discriminate.
    + destruct (Hloop Hin Hs) as [Hres Hlast].
      inversion Hres; subst. split; [reflexivity | exact Hlast].
  - cbn. intros Hin. inversion Hin.
Qed.

(** The loop asks for the raw pixels of a prefix of the list, in order. *)
Lemma for_of_calls images :
  forall st, exists k : nat,
    (for_of toBuffer images st).1 = raw <$> take k images.
Proof.
  induction images as [|img images IH]; intros st.
  - exists 0%nat. reflexivity.
  - cbn [for_of].
    pose proof (ToIcoFacts.body_calls toBuffer st img) as Hcalls.
    unfold mbind, Async_bind.
    destruct (imagesToIco_body toBuffer st img) as [calls [st'|e1]];
      cbn [fst] in Hcalls; subst calls.
    + destruct (IH st') as [k Hk].
      destruct (for_of toBuffer images st') as [calls' res'].
      cbn [fst] in *. exists (S k). rewrite Hk. reflexivity.
    + exists 1%nat. reflexivity.
Qed.

End WithLibrary.
End FailFacts.

(** X11. A failure of the library is passed on unchanged and ends the
    conversion: if any pipeline that [toIco] awaits is rejected with [e],
    then [toIco] throws that same [e], and the rejected pipeline is the
    last one it asked for. *)
Theorem toIco_propagates (toBuffer : Sharp -> result (list Z * OutputInfo))
    (image s : Sharp) (e : Error) :
  s ∈ (toIco toBuffer image).1 ->
  toBuffer s = Throw e ->
  (toIco toBuffer image).2 = Throw e
  /\ last (toIco toBuffer image).1 = Some s.
Proof.
  intros Hin Hs.
  destruct (toBuffer image) as [[d info]|e0] eqn:Hsrc.
  - assert (Hne : s <> image) by congruence.
    destruct (String.eqb_spec (format info) "png") as [Hf|Hf];
      [destruct (Z.eq_dec (width info) (height info)) as [Hw|Hw]|].
    + rewrite (ToIcoFacts.toIco_valid toBuffer image d info Hsrc Hf Hw) in *.
      cbn [fst snd] in *.
      apply elem_of_cons in Hin as [-> | Hin]; [congruence|].
      destruct (FailFacts.imagesToIco_throws toBuffer _ s e Hin Hs)
        as [Hres Hlast].
      split; [exact Hres|].
      destruct ((imagesToIco toBuffer (imageList info image)).1)
        as [|c calls]; [inversion Hin | exact Hlast].
    + rewrite (ToIcoFacts.toIco_invalid toBuffer image d info Hsrc
                 (or_intror Hw)) in Hin.
      cbn [fst] in Hin.
      apply elem_of_cons in Hin as [-> | Hin]; [congruence | inversion Hin].
    + rewrite (ToIcoFacts.toIco_invalid toBuffer image d info Hsrc
                 (or_introl Hf)) in Hin.
      cbn [fst] in Hin.
      apply elem_of_cons in Hin as [-> | Hin]; [congruence | inversion Hin].
  - rewrite (ToIcoFacts.toIco_rejected toBuffer image e0 Hsrc) in *.
    cbn [fst snd] in *.
    apply elem_of_cons in Hin as [-> | Hin]; [|inversion Hin].
    split; [congruence | reflexivity].
Qed.

(** X11 on a library whose 32x32 resample fails: the 16x16 image and the
    canonical one are never requested. *)
Lemma toIco_propagates_failing32 :
  (toIco failing32 (sharp "icon.png")).2 = Throw (JsError "resize failed")
  /\ last (toIco failing32 (sharp "icon.png")).1
     = Some (raw (resize (clone (resize (sharp "icon.png") 256 256 cubic))
                    32 32 cubic)).
Proof.
  apply (toIco_propagates failing32 (sharp "icon.png")).
  - vm_compute. apply elem_of_cons. right. apply elem_of_cons. right.
    apply list_elem_of_here.
  - reflexivity.
Defined.

(** X12. Whatever the library answers, [imagesToIco] asks it for the raw
    pixels of the listed images only, in list order and one request per
    list position, stopping at some position: its requests are [raw] of a
    prefix of the list. *)
Theorem imagesToIco_requests (toBuffer : Sharp -> result (list Z * OutputInfo))
    (images : list Sharp) :
  exists k : nat, (imagesToIco toBuffer images).1 = raw <$> take k images.
Proof.
  unfold imagesToIco, sync, mbind, Async_bind.
  destruct (getHeader (Z.of_nat (List.length images))) as [header|e0].
  - match goal with
    | |- context [for_of toBuffer images ?st0] =>
        destruct (FailFacts.for_of_calls toBuffer images st0) as [k Hk];
        destruct (for_of toBuffer images st0) as [calls [st|e1]]
    end; cbn [fst snd] in *; exists k.
    + unfold mret, Async_ret. rewrite app_nil_r. exact Hk.
    + exact Hk.
  - exists 0%nat. reflexivity.
Qed.

(** ** The container for any number of images *)

Module SpanFacts.

(** Bytes of the first [k] blocks. *)
Lemma prefix_mono (blocks : list (list Z)) (a b : nat) :
  (a <= b)%nat ->
  (List.length (mjoin (take a blocks)) <= List.length (mjoin (take b blocks)))%nat.
Proof.
  intros Hab. replace b with (a + (b - a))%nat by lia.
  rewrite <- take_take_drop, join_app, length_app. lia.
Qed.

Lemma prefix_succ (blocks : list (list Z)) (i : nat) blk :
  blocks !! i = Some blk ->
  List.length (mjoin (take (S i) blocks))
  = (List.length (mjoin (take i blocks)) + List.length blk)%nat.
Proof.
  intros H. rewrite (take_S_r _ _ _ H), join_app, length_app.
  cbn. rewrite app_nil_r. reflexivity.
Qed.

Lemma prefix_le_total (blocks : list (list Z)) (k : nat) :
  (List.length (mjoin (take k blocks)) <= List.length (mjoin blocks))%nat.
Proof.
  rewrite <- (take_drop k blocks) at 2. rewrite join_app, length_app. lia.
Qed.

Lemma offset_at rendered off0 (i : nat) di :
  Forall rendered_ok rendered ->
  rendered !! i = Some di ->
  exists off,
    offsetsFrom off0 (snd <$> rendered) !! i = Some off
    /\ off = off0
             + Z.of_nat (List.length
                 (mjoin (take i ((fun di => hdrBytes di.2 ++ dibOf di)
                                   <$> rendered)))).
Proof.
  intros Hok Hi.
  assert (Hlt : (i < List.length (offsetsFrom off0 (snd <$> rendered)))%nat).
  { rewrite OffsetFacts.length_offsetsFrom, length_fmap.
    apply lookup_lt_is_Some. eauto. }
  destruct (lookup_lt_is_Some_2 _ _ Hlt) as [off Ho].
  exists off. split; [exact Ho|].
  pose proof (OffsetFacts.offsetsFrom_prefix rendered Hok off0 i off Ho). lia.
Qed.

Lemma container_length rendered (N off0 : Z) :
  Forall rendered_ok rendered ->
  Buf.length
    ((le16 0 ++ le16 1 ++ le16 N)
     ++ mjoin (zip_with dirBytes (snd <$> rendered)
                 (offsetsFrom off0 (snd <$> rendered)))
     ++ mjoin ((fun di => hdrBytes di.2 ++ dibOf di) <$> rendered))
  = 6 + 16 * Z.of_nat (List.length rendered) + bodiesLen (snd <$> rendered).
Proof.
  intros Hok. unfold Buf.length. rewrite !length_app, !Nat2Z.inj_add.
  pose proof (AssemblerFacts.length_dirs (snd <$> rendered) off0) as Hd.
  pose proof (AssemblerFacts.length_bodies rendered Hok) as Hb.
  unfold Buf.length in Hd, Hb. rewrite Hd, Hb, length_fmap.
  change (Z.of_nat (List.length (le16 0))) with 2.
  change (Z.of_nat (List.length (le16 1))) with 2.
  change (Z.of_nat (List.length (le16 N))) with 2.
  lia.
Qed.

End SpanFacts.

(** X13. For any number of images that all render as square RGBA8 rasters,
    [imagesToIco] asks for the raw pixels of every image once, in list
    order, and returns a container that starts with the six header bytes
    0, 0, 1, 0 and the 16-bit image count, and is [6 + 16 * N] bytes plus
    [40 + payloadLength] bytes per image long. *)
Theorem imagesToIco_container
    (toBuffer : Sharp -> result (list Z * OutputInfo))
    (images : list Sharp) (rendered : list (list Z * OutputInfo)) :
  Forall2 (fun img di => toBuffer (raw img) = Ok di) images rendered ->
  Forall rendered_ok rendered ->
  Z.of_nat (List.length images) < 2 ^ 16 ->
  6 + 16 * Z.of_nat (List.length images) + bodiesLen (snd <$> rendered)
  < 2 ^ 32 ->
  let N := Z.of_nat (List.length images) in
  exists out,
    imagesToIco toBuffer images = (raw <$> images, Ok out)
    /\ slice out 0 6 = [0; 0; 1; 0; N mod 256; N / 256]
    /\ Buf.length out = 6 + 16 * N + bodiesLen (snd <$> rendered).
Proof.
  intros Hbuf Hok HN Hmax N.
  pose proof (Forall2_length _ _ _ Hbuf) as Hlen.
  rewrite (AssemblerFacts.imagesToIco_run toBuffer images rendered
             Hbuf Hok HN Hmax).
  fold N. eexists. split; [reflexivity|]. split.
  - unfold slice. change (Z.to_nat 0) with 0%nat. rewrite drop_0.
    rewrite take_app_length' by reflexivity.
    assert (E : (N / 2 ^ 8) mod 256 = N / 256).
    { change (2 ^ 8) with 256. apply Z.mod_small.
      change (2 ^ 16) with 65536 in HN. unfold N.
      Z.div_mod_to_equations. lia. }
    rewrite !RecordFacts.le16_bytes, E. reflexivity.
  - unfold Buf.length. rewrite !length_app, !Nat2Z.inj_add.
    pose proof (AssemblerFacts.length_dirs (snd <$> rendered) (6 + 16 * N))
      as Hd.
    pose proof (AssemblerFacts.length_bodies rendered Hok) as Hb.
    unfold Buf.length in Hd, Hb. rewrite Hd, Hb, length_fmap.
    change (Z.of_nat (List.length (le16 0))) with 2.
    change (Z.of_nat (List.length (le16 1))) with 2.
    change (Z.of_nat (List.length (le16 N))) with 2.
    unfold N. lia.
Qed.

(** X13 on the empty list, which yields the bare header, and on the four
    images of a 256x256 source rendered by [solid]. *)
Lemma imagesToIco_container_examples :
  imagesToIco dot [] = ([], Ok [0; 0; 1; 0; 0; 0])
  /\ exists out,
       (imagesToIco (solid 256)
          (imageList (mkOutputInfo "png" 262144 256 256) (sharp "icon.png"))).2
       = Ok out
       /\ slice out 0 6 = [0; 0; 1; 0; 4; 0]
       /\ Buf.length out = 285478.
Proof.
  split.
  - destruct (imagesToIco_container dot [] [])
      as (out & Hrun & Hhead & Hlen);
      [constructor | constructor | reflexivity | reflexivity |].
    rewrite Hrun. do 2 f_equal.
    destruct out as [|b0 [|b1 [|b2 [|b3 [|b4 [|b5 [|b6 out]]]]]]];
      try discriminate.
    exact Hhead.
  - destruct (imagesToIco_container (solid 256)
                (imageList (mkOutputInfo "png" 262144 256 256)
                   (sharp "icon.png"))
                [solidImage 48; solidImage 32; solidImage 16; solidImage 256])
      as (out & Hrun & Hhead & Hlen).
    + repeat constructor.
    + apply solid_sizes_ok.
    + reflexivity.
    + reflexivity.
    + exists out. rewrite Hrun. auto.
Defined.

(** X14. The file offsets stored in the directory, read back from the
    container, place every image after the directory and inside the
    container, and the span [off, off + 40 + payloadLength) of an image
    ends at or before the offset of every later image: no two images
    overlap. *)
Theorem imagesToIco_spans (toBuffer : Sharp -> result (list Z * OutputInfo))
    (images : list Sharp) (rendered : list (list Z * OutputInfo)) :
  Forall2 (fun img di => toBuffer (raw img) = Ok di) images rendered ->
  Forall rendered_ok rendered ->
  Z.of_nat (List.length images) < 2 ^ 16 ->
  6 + 16 * Z.of_nat (List.length images) + bodiesLen (snd <$> rendered)
  < 2 ^ 32 ->
  exists out,
    (imagesToIco toBuffer images).2 = Ok out
    /\ let offAt (i : nat) :=
         little_endian_to_Z 8 (slice out (6 + 16 * Z.of_nat i + 12) 4) in
       forall (i : nat) di,
         rendered !! i = Some di ->
         6 + 16 * Z.of_nat (List.length images) <= offAt i
         /\ offAt i + 40 + payloadLen di.2 <= Buf.length out
         /\ forall (j : nat) dj,
              (i < j)%nat -> rendered !! j = Some dj ->
              offAt i + 40 + payloadLen di.2 <= offAt j.
Proof.
  intros Hbuf Hok HN Hmax.
  pose proof (Forall2_length _ _ _ Hbuf) as Hlen.
  rewrite (AssemblerFacts.imagesToIco_run toBuffer images rendered
             Hbuf Hok HN Hmax).
  cbn [snd]. eexists. split; [reflexivity|].
  set (N := Z.of_nat (List.length images)) in *.
  pose proof (SpanFacts.container_length rendered N (6 + 16 * N) Hok)
    as Htotal.
  rewrite <- Hlen in Htotal. fold N in Htotal.
  set (out := (le16 0 ++ le16 1 ++ le16 N)
              ++ mjoin (zip_with dirBytes (snd <$> rendered)
                          (offsetsFrom (6 + 16 * N) (snd <$> rendered)))
              ++ mjoin ((fun di => hdrBytes di.2 ++ dibOf di) <$> rendered))
    in *.
  assert (Hout : out = (le16 0 ++ le16 1 ++ le16 N)
              ++ mjoin (zip_with dirBytes (snd <$> rendered)
                          (offsetsFrom (6 + 16 * N) (snd <$> rendered)))
              ++ mjoin ((fun di => hdrBytes di.2 ++ dibOf di) <$> rendered))
    by reflexivity.
  clearbody out.
  set (blocks := (fun di => hdrBytes di.2 ++ dibOf di) <$> rendered) in *.
  pose proof (AssemblerFacts.length_bodies rendered Hok) as Hbodies.
  unfold Buf.length in Hbodies. fold blocks in Hbodies.
  (* the offset field of entry [i] is the start plus the blocks before it *)
  assert (Hat : forall (i : nat) di, rendered !! i = Some di ->
            little_endian_to_Z 8 (slice out (6 + 16 * Z.of_nat i + 12) 4)
            = 6 + 16 * N + Z.of_nat (List.length (mjoin (take i blocks)))).
  { intros i di Hi.
    destruct (SpanFacts.offset_at rendered (6 + 16 * N) i di Hok Hi)
      as (off & Ho & Hoff).
    fold blocks in Hoff.
    assert (Hinfo : (snd <$> rendered) !! i = Some di.2)
      by (rewrite list_lookup_fmap, Hi; reflexivity).
    pose proof (SpanFacts.prefix_le_total blocks i) as Hle.
    rewrite Hout.
    rewrite <- (OffsetFacts.slice_slice _ (6 + 16 * Z.of_nat i) 16 12 4)
      by lia.
    rewrite (OffsetFacts.container_dir_entry _ _ _ _ i di.2 off);
      [| reflexivity | exact Hinfo | exact Ho].
    rewrite OffsetFacts.dirBytes_offset. unfold le32.
    rewrite little_endian_to_Z_to_little_endian by lia.
    change (2 ^ (4 * 8)) with (2 ^ 32).
    rewrite Z.mod_small; lia. }
  intros i di Hi.
  assert (Hblk : blocks !! i = Some (hdrBytes di.2 ++ dibOf di)).
  { unfold blocks. rewrite list_lookup_fmap, Hi. reflexivity. }
  pose proof (SpanFacts.prefix_succ blocks i _ Hblk) as Hsucc.
  pose proof (Forall_lookup_1 _ _ _ _ Hok Hi) as Hdi.
  destruct (AssemblerFacts.getDib_dibOf di Hdi) as [_ Hdiblen].
  unfold Buf.length in Hdiblen.
  rewrite length_app in Hsucc.
  change (List.length (hdrBytes di.2)) with 40%nat in Hsucc.
  rewrite (Hat i di Hi).
  split; [lia|]. split.
  - pose proof (SpanFacts.prefix_le_total blocks (S i)). rewrite Htotal. lia.
  - intros j dj Hij Hj. rewrite (Hat j dj Hj).
    pose proof (SpanFacts.prefix_mono blocks (S i) j ltac:(lia)). lia.
Qed.

(** X14 on the four images of a 256x256 source rendered by [solid]. *)
Lemma imagesToIco_spans_solid :
  exists out,
    (imagesToIco (solid 256)
       (imageList (mkOutputInfo "png" 262144 256 256) (sharp "icon.png"))).2
    = Ok out
    /\ 6 + 16 * 4 <= little_endian_to_Z 8 (slice out (6 + 16 * 0 + 12) 4)
    /\ little_endian_to_Z 8 (slice out (6 + 16 * 0 + 12) 4) + 40 + 9600
       <= little_endian_to_Z 8 (slice out (6 + 16 * 3 + 12) 4).
Proof.
  destruct (imagesToIco_spans (solid 256)
              (imageList (mkOutputInfo "png" 262144 256 256) (sharp "icon.png"))
              [solidImage 48; solidImage 32; solidImage 16; solidImage 256])
    as (out & Hrun & Hall).
  - repeat constructor.
  - apply solid_sizes_ok.
  - reflexivity.
  - reflexivity.
  - exists out. split; [exact Hrun|].
    destruct (Hall 0%nat (solidImage 48) eq_refl) as (Hfirst & _ & Hlater).
    split; [exact Hfirst|].
    exact (Hlater 3%nat (solidImage 256) ltac:(lia) eq_refl).
Defined.

(** ** The whole colour map *)

(** X15. On a square RGBA8 raster the colour map that [getDib] returns is
    the raster with its rows in reverse order and red and blue exchanged:
    byte [c] of the pixel in column [x] of stored row [l] is channel
    [2 - c] (alpha for [c = 3]) of the pixel in column [x] of image row
    [W - 1 - l].  Every byte of the colour map is covered. *)
Theorem getDib_color_rows (data : list Z) (info : OutputInfo) (W : Z) :
  square_rgba8 data info W ->
  exists out,
    getDib data info = Ok out
    /\ forall l x c, 0 <= l < W -> 0 <= x < W -> 0 <= c < 4 ->
         Buf.get out ((l * W + x) * 4 + c)
         = Buf.get data (((W - 1 - l) * W + x) * 4
                         + (if c =? 3 then 3 else 2 - c)).
Proof.
  intros Hsq.
  destruct (DibFacts.getDib_run data info W Hsq)
    as (buf0 & cbuf & out & _ & _ & HX & Hrun & HA).
  destruct HX as (_ & _ & Hdone & _).
  destruct HA as (_ & _ & Hcol & _).
  pose proof Hsq as (_ & _ & _ & Hlen & Hwf & HW).
  exists out. split; [exact Hrun|].
  intros l x c Hl Hx Hc.
  assert (Hy : 0 <= W - 1 - l < W) by lia.
  destruct (XorFacts.pixel_defined data W Hlen Hwf x (W - 1 - l) Hx Hy)
    as (r & g & b & a & Hpx & _).
  destruct (Hdone x (W - 1 - l) Hx Hy ltac:(unfold before; lia) r g b a Hpx)
    as (G0 & G1 & G2 & G3).
  pose proof (Geometry.xorPos_range W x (W - 1 - l) Hx Hy) as Hpos.
  assert (Epos : xorPos W x (W - 1 - l) = (l * W + x) * 4)
    by (unfold xorPos; f_equal; f_equal; lia).
  rewrite Epos in *.
  unfold getColorPixel in Hpx. inversion Hpx as [[Er Eg Eb Ea]].
  rewrite Hcol by lia.
  assert (c = 0 \/ c = 1 \/ c = 2 \/ c = 3) as [-> | [-> | [-> | ->]]] by lia;
    cbn [Z.eqb Z.sub Z.opp Z.pos_sub Pos.pred_double].
  - rewrite Z.add_0_r. rewrite G0. symmetry. exact Eb.
  - rewrite G1. symmetry. exact Eg.
  - rewrite G2. symmetry. exact Er.
  - rewrite G3. symmetry. exact Ea.
Qed.

(** X15 on the 2x2 example: stored row 0 starts with the blue byte of the
    first pixel of image row 1. *)
Lemma getDib_color_rows_2x2 :
  exists out,
    getDib demo2x2 demo2x2_info = Ok out
    /\ Buf.get out ((0 * 2 + 0) * 4 + 0) = Some 11
    /\ Buf.get out ((1 * 2 + 1) * 4 + 3) = Some 128.
Proof.
  destruct (getDib_color_rows demo2x2 demo2x2_info 2) as (out & Hrun & Hall).
  - unfold square_rgba8, Buf.wf, Buf.is_byte. simpl.
    repeat split; try reflexivity; try lia.
    repeat constructor; lia.
  - exists out. split; [exact Hrun|].
    split; [rewrite Hall by lia | rewrite Hall by lia]; reflexivity.
Defined.

(** ** Rasters without an alpha channel *)

(** X16. A raster with three bytes per pixel ([info.size = W * W * 3]) makes
    [getDib] throw a range error for every width from 8 on: the buffer it
    allocates is too short for the four-byte colour words. *)
Theorem getDib_rgb_throws (data : list Z) (info : OutputInfo) :
  8 <= width info ->
  size info = width info * width info * 3 ->
  getDib data info = Throw ERR_OUT_OF_RANGE.
Proof.
  intros HW Hs. apply getDib_first_write_throws; [lia|].
  rewrite Hs.
  destruct (Z.eq_dec (width info) 8) as [-> | Hne]; [reflexivity|].
  pose proof (getRowStride_padding_aux (width info) ltac:(lia))
    as (_ & _ & Hpad).
  nia.
Qed.

(** X16 on a 48x48 raster with three bytes per pixel. *)
Lemma getDib_rgb_throws_48 :
  getDib (replicate (Z.to_nat 6912) 255) (mkOutputInfo "raw" 6912 48 48)
  = Throw ERR_OUT_OF_RANGE.
Proof. apply getDib_rgb_throws; [simpl; lia | reflexivity]. Defined.
